(** * civa-frontend: pagination window, request pipeline and page metadata

    A shallow embedding of the parts of the bus-fleet client that carry an
    algorithm or a failure model:

    - [Pagination]   : ui/components/organisms/Pagination.tsx
    - [Http]         : shared/services/fetchHttpClient.ts
    - [BusAssembler] : infrastructure/api/assembler/bus-assembler.ts
    - [BusService]   : infrastructure/api/bus-api.ts and
                       application/service/bus-service.ts

    JavaScript numbers that hold page indices, counts and HTTP status codes
    are modelled as [Z], arrays as [list], objects used as maps as [gmap].
    An [async] function is a state-passing computation over a [World] of
    armed timers, abort controllers and a log of events, which either
    completes normally or throws.  What the runtime and the server do is a
    parameter ([Http.Platform]); for every awaited operation the platform
    says whether it settles before or after the timer that guards its
    signal expires. *)

From stdpp Require Import gmap strings list fin_maps pretty.
From Stdlib Require Import ZArith Lia Ascii String.

Set Warnings "-register-all".

Local Open Scope Z_scope.

(* ===================================================================== *)
(** * Pagination.tsx *)
(* ===================================================================== *)

Module Pagination.

(** [Array.from({ length: len }, (_, i) => f i)].  The length of an
    array-like is clamped at zero by the platform, hence [Z.to_nat]. *)
Definition Array_from_length {A : Type} (len : Z) (f : nat → A) : list A :=
  f <$> seq 0 (Z.to_nat len).

(** [pages.push(x)] on the local array. *)
Definition push (pages : list Z) (x : Z) : list Z := pages ++ [x].

(** The loop [for (let i = lo; i < hi; i++) pages.push(i)], unrolled on a
    step budget; [for_lt] gives it the budget the loop needs. *)
Fixpoint for_lt_steps (steps : nat) (i hi : Z) (pages : list Z) : list Z :=
  match steps with
  | O => pages
  | S steps' =>
      if i <? hi then for_lt_steps steps' (i + 1) hi (push pages i) else pages
  end.

Definition for_lt (lo hi : Z) (pages : list Z) : list Z :=
  for_lt_steps (Z.to_nat (hi - lo)) lo hi pages.

(** The loop [for (let i = lo; i <= hi; i++) pages.push(i)]. *)
Fixpoint for_le_steps (steps : nat) (i hi : Z) (pages : list Z) : list Z :=
  match steps with
  | O => pages
  | S steps' =>
      if i <=? hi then for_le_steps steps' (i + 1) hi (push pages i) else pages
  end.

Definition for_le (lo hi : Z) (pages : list Z) : list Z :=
  for_le_steps (Z.to_nat (hi + 1 - lo)) lo hi pages.

(** [getVisiblePages], a closure over [currentPage] and [totalPages].
    The two ellipsis markers are the sentinels [-1] and [-2]. *)
Definition getVisiblePages (currentPage totalPages : Z) : list Z :=
  if totalPages <=? 7 then
    Array_from_length totalPages (λ i, Z.of_nat i)
  else
    let pages := [] in
    if currentPage <=? 2 then
      let pages := for_lt 0 5 pages in
      let pages := push pages (-1) in
      push pages (totalPages - 1)
    else if currentPage >=? totalPages - 3 then
      let pages := push pages 0 in
      let pages := push pages (-1) in
      for_lt (totalPages - 5) totalPages pages
    else
      let pages := push pages 0 in
      let pages := push pages (-1) in
      let pages := for_le (currentPage - 1) (currentPage + 1) pages in
      let pages := push pages (-2) in
      push pages (totalPages - 1).

(** The test the render loop uses to tell a marker from a page index. *)
Definition is_ellipsis (page : Z) : bool := (page =? -1) || (page =? -2).

(** Component properties; [pageSize] and [loading] are optional. *)
Record Props := {
  currentPage : Z;
  totalPages : Z;
  totalElements : Z;
  pageSize : option Z;
  loading : option bool
}.

(** React keys of the children of the page list: [`ellipsis-${index}`]
    for a marker, the page index itself for a button. *)
Inductive Key :=
| KeyEllipsis (index : nat)
| KeyPage (page : Z).

(** One rendered child of the page list. *)
Inductive Item :=
| Ellipsis (key : Key)
| PageButton (key : Key) (onClick : Z) (disabled : bool) (active : bool)
             (label : Z).

Definition item_key (it : Item) : Key :=
  match it with
  | Ellipsis k => k
  | PageButton k _ _ _ _ => k
  end.

(** [visiblePages.map((page, index) => ...)]. *)
Definition render_page (currentPage : Z) (loading : bool)
           (index : nat) (page : Z) : Item :=
  if is_ellipsis page then Ellipsis (KeyEllipsis index)
  else PageButton (KeyPage page) page loading (page =? currentPage) (page + 1).

(** What the component puts on screen. *)
Record View := {
  prev_onClick : Z;
  prev_disabled : bool;
  next_onClick : Z;
  next_disabled : bool;
  start : Z;
  end_ : Z;
  shown_total : Z;
  items : list Item
}.

(** The component: [None] is the [null] it returns for at most one page. *)
Definition Pagination (props : Props) : option View :=
  let currentPage := currentPage props in
  let totalPages := totalPages props in
  let totalElements := totalElements props in
  let pageSize := default 5 (pageSize props) in
  let loading := default false (loading props) in
  if totalPages <=? 1 then None
  else
    let isFirst := currentPage =? 0 in
    let isLast := currentPage =? totalPages - 1 in
    let start := currentPage * pageSize + 1 in
    let end_ := Z.min ((currentPage + 1) * pageSize) totalElements in
    let visiblePages := getVisiblePages currentPage totalPages in
    Some {|
      prev_onClick := currentPage - 1;
      prev_disabled := isFirst || loading;
      next_onClick := currentPage + 1;
      next_disabled := isLast || loading;
      start := start;
      end_ := end_;
      shown_total := totalElements;
      items := imap (render_page currentPage loading) visiblePages
    |}.

(** The entries of a window that are page indices, not markers. *)
Definition numeric (window : list Z) : list Z :=
  filter (λ page, is_ellipsis page = false) window.

End Pagination.

(* ===================================================================== *)
(** * fetchHttpClient.ts *)
(* ===================================================================== *)

Module Http.

(** ** Values and errors *)

(** A value of the client: [undefined], raw text, or parsed JSON. *)
Inductive JSValue :=
| JUndefined
| JNull
| JBool (b : bool)
| JNumber (n : Z)
| JString (s : string)
| JArray (elements : list JSValue)
| JObject (members : list (string * JSValue)).

(** A thrown value.  [err_status] and [err_data] are the two properties
    [request] attaches with [Object.assign]; they are absent ([None]) on
    the errors the platform throws. *)
Record ErrorObj := {
  err_name : string;
  err_message : string;
  err_status : option Z;
  err_data : option JSValue
}.

(** [new Error(message)] *)
Definition new_Error (message : string) : ErrorObj :=
  {| err_name := "Error"; err_message := message;
     err_status := None; err_data := None |}.

(** [Object.assign(e, { status, data })] *)
Definition Object_assign (e : ErrorObj) (status : Z) (data : JSValue) : ErrorObj :=
  {| err_name := err_name e; err_message := err_message e;
     err_status := Some status; err_data := Some data |}.

(** A string in condition position: only the empty string is falsy. *)
Definition truthy (s : string) : bool :=
  match s with
  | EmptyString => false
  | String _ _ => true
  end.

(** [hay.includes(needle)] *)
Definition includes (hay needle : string) : bool :=
  match String.index 0%nat needle hay with
  | Some _ => true
  | None => false
  end.

(** ** The world a call runs in: timers, abort controllers, a log *)

(** The only timer callback of the module: [() => ctrl.abort()]. *)
Inductive Callback :=
| ctrl_abort (ctrl : nat).

#[global] Instance Callback_eq_dec : EqDecision Callback.
Proof. solve_decision. Defined.

(** What [fetch] is handed. *)
Record FetchInit := {
  init_method : option string;
  init_headers : gmap string string;
  init_body : option string;
  init_signal : nat
}.

Inductive Event :=
| EvSetTimeout (id : nat) (ms : Z)
| EvClearTimeout (id : nat)
| EvTimerFired (ctrl : nat)
| EvFetch (url : string) (init : FetchInit)
| EvReadBody
| EvJSONParse (text : string)
| EvConsoleError (e : ErrorObj).

Record World := {
  next_timer : nat;               (* next handle [setTimeout] returns *)
  next_ctrl : nat;                (* next abort controller *)
  timers : gmap nat Callback;     (* armed timers *)
  aborted : gset nat;             (* controllers whose signal is aborted *)
  trace : list Event              (* what has happened, oldest first *)
}.

Definition set_timers (f : gmap nat Callback → gmap nat Callback) (w : World) : World :=
  {| next_timer := next_timer w; next_ctrl := next_ctrl w;
     timers := f (timers w); aborted := aborted w; trace := trace w |}.

Definition set_aborted (f : gset nat → gset nat) (w : World) : World :=
  {| next_timer := next_timer w; next_ctrl := next_ctrl w;
     timers := timers w; aborted := f (aborted w); trace := trace w |}.

Definition log (ev : Event) (w : World) : World :=
  {| next_timer := next_timer w; next_ctrl := next_ctrl w;
     timers := timers w; aborted := aborted w; trace := trace w ++ [ev] |}.

(** ** Computations that may throw *)

Inductive Completion (A : Type) :=
| Normal (a : A)
| Throw (e : ErrorObj).
Arguments Normal {A} a.
Arguments Throw {A} e.

Definition M (A : Type) : Type := World → Completion A * World.

Definition ret {A} (a : A) : M A := λ w, (Normal a, w).

Definition bind {A B} (m : M A) (k : A → M B) : M B :=
  λ w, match m w with
       | (Normal a, w') => k a w'
       | (Throw e, w') => (Throw e, w')
       end.

Definition throw {A} (e : ErrorObj) : M A := λ w, (Throw e, w).

(** [try { m } catch (error) { handler error }] *)
Definition try_catch {A} (m : M A) (handler : ErrorObj → M A) : M A :=
  λ w, match m w with
       | (Normal a, w') => (Normal a, w')
       | (Throw e, w') => handler e w'
       end.

(** [try { m } finally { cleanup }]: the cleanup runs on both exits; the
    completion of [m] stands unless the cleanup itself throws. *)
Definition try_finally {A} (m : M A) (cleanup : M unit) : M A :=
  λ w, match m w with
       | (c, w') =>
           match cleanup w' with
           | (Normal _, w'') => (c, w'')
           | (Throw e, w'') => (Throw e, w'')
           end
       end.

Definition emit (ev : Event) : M unit := λ w, (Normal tt, log ev w).

Notation "'let*' x ':=' m 'in' k" := (bind m (λ x, k))
  (at level 10, x pattern, m at level 100, k at level 200).

(** ** Timers and abort controllers *)

(** [new AbortController()]: a new controller, whose signal starts out
    not aborted. *)
Definition new_AbortController : M nat :=
  λ w, (Normal (next_ctrl w),
        {| next_timer := next_timer w; next_ctrl := S (next_ctrl w);
           timers := timers w; aborted := aborted w ∖ {[next_ctrl w]};
           trace := trace w |}).

(** [setTimeout(cb, ms)] arms a timer under a fresh handle. *)
Definition setTimeout (cb : Callback) (ms : Z) : M nat :=
  λ w, let id := next_timer w in
       (Normal id,
        log (EvSetTimeout id ms)
          {| next_timer := S id; next_ctrl := next_ctrl w;
             timers := <[id := cb]> (timers w);
             aborted := aborted w; trace := trace w |}).

(** [clearTimeout(id)] disarms the timer; unknown handles are ignored. *)
Definition clearTimeout (id : nat) : M unit :=
  λ w, (Normal tt, log (EvClearTimeout id) (set_timers (delete id) w)).

Definition guards (ctrl : nat) (entry : nat * Callback) : Prop :=
  entry.2 = ctrl_abort ctrl.

#[global] Instance guards_dec ctrl entry : Decision (guards ctrl entry).
Proof. unfold guards. apply _. Defined.

(** The deadline of the timers that guard [ctrl] passes: each of them
    fires once, which runs [ctrl.abort()], and is no longer armed. *)
Definition deadline_passes (ctrl : nat) : M unit :=
  λ w, if decide (filter (guards ctrl) (timers w) = ∅) then (Normal tt, w)
       else (Normal tt,
             log (EvTimerFired ctrl)
               (set_aborted (λ a, {[ctrl]} ∪ a)
                  (set_timers (filter (λ entry, ¬ guards ctrl entry)) w))).

Definition is_aborted (ctrl : nat) : M bool :=
  λ w, (Normal (bool_decide (ctrl ∈ aborted w)), w).

(** ** The platform and the network *)

(** Whether an awaited operation settles before the timer that guards
    its signal expires. *)
Inductive Timing := InTime | Late.

(** What the server sends back.  Header names are in lower case, as the
    [Headers] object keeps them. *)
Record Response := {
  res_status : Z;
  res_statusText : string;
  res_headers : gmap string string;
  res_body_timing : Timing;
  res_body : string + ErrorObj
}.

(** One exchange on the wire: a response, or the error [fetch] rejects
    with when the network fails. *)
Record Exchange := {
  timing : Timing;
  outcome : Response + ErrorObj
}.

(** What the module takes from its surroundings: the configured base
    address, the JSON built-ins ([JSON_parse] gives the [SyntaxError] it
    throws on the right), the reason an aborted signal rejects with, and
    the server behind [fetch]. *)
Record Platform := {
  BASE_URL : string;
  JSON_parse : string → JSValue + ErrorObj;
  JSON_stringify : JSValue → string;
  abort_reason : ErrorObj;
  network : string → FetchInit → Exchange
}.

(** [res.ok]: the status is in the range 200 to 299. *)
Definition res_ok (res : Response) : bool :=
  (200 <=? res_status res) && (res_status res <=? 299).

(** [RequestInit & { jsonBody?: unknown }] *)
Record Options := {
  opt_method : option string;
  opt_headers : option (gmap string string);
  opt_body : option string;
  opt_jsonBody : option JSValue
}.

(** [v !== undefined] for an optional property. *)
Definition is_defined (v : option JSValue) : bool :=
  match v with
  | None | Some JUndefined => false
  | Some _ => true
  end.

(** What the [try] block of [request] returns: a value, or a promise the
    caller is left to wait for ([return res.json()] has no [await]). *)
Inductive Returned :=
| Value (v : JSValue)
| Promise (p : M JSValue).

Definition TIMEOUT : Z := 10000.

Section Client.

Variable env : Platform.

(** Waiting for an operation bound to the signal of [ctrl]. *)
Definition await {A} (ctrl : nat) (t : Timing) (result : A + ErrorObj) : M A :=
  let* _ := match t with
            | InTime => ret tt
            | Late => deadline_passes ctrl
            end in
  let* stop := is_aborted ctrl in
  if stop : bool then throw (abort_reason env)
  else match result with
       | inl a => ret a
       | inr e => throw e
       end.

(** [fetch(url, init)]; the response remembers the signal it was
    fetched under. *)
Definition fetch (url : string) (init : FetchInit) : M (Response * nat) :=
  let* _ := emit (EvFetch url init) in
  let exchange := network env url init in
  let* res := await (init_signal init) (timing exchange) (outcome exchange) in
  ret (res, init_signal init).

(** [res.text()] *)
Definition Response_text (res : Response * nat) : M string :=
  let* _ := emit EvReadBody in
  await res.2 (res_body_timing res.1) (res_body res.1).

(** [JSON.parse(text)] *)
Definition parse (text : string) : M JSValue :=
  let* _ := emit (EvJSONParse text) in
  match JSON_parse env text with
  | inl v => ret v
  | inr e => throw e
  end.

(** [res.json()] *)
Definition Response_json (res : Response * nat) : M JSValue :=
  let* text := Response_text res in
  parse text.

(** [res.headers.get(name)] *)
Definition headers_get (res : Response * nat) (name : string) : option string :=
  res_headers res.1 !! name.

Definition buildURL (endpoint : string) : string :=
  let fullUrl := String.append (BASE_URL env) endpoint in
  fullUrl.

Definition timeoutSignal (ms : Z) : M (nat * nat) :=
  let* ctrl := new_AbortController in
  let* id := setTimeout (ctrl_abort ctrl) ms in
  ret (ctrl, id).

Definition console_error (error : ErrorObj) : M unit :=
  emit (EvConsoleError error).

(** The second argument of the [fetch] call in [request]:
    [{ ...options, signal, headers: finalHeaders, body: ... }]. *)
Definition fetch_init (options : Options) (signal : nat) : FetchInit :=
  let hasJsonBody := is_defined (opt_jsonBody options) in
  let headers := default ∅ (opt_headers options) in
  let finalHeaders :=
    if hasJsonBody
    then <["Content-Type" := "application/json"]> headers
    else headers in
  {| init_method := opt_method options;
     init_signal := signal;
     init_headers := finalHeaders;
     init_body := if hasJsonBody
                  then JSON_stringify env <$> opt_jsonBody options
                  else opt_body options |}.

Definition request (endpoint : string) (options : Options) : M JSValue :=
  let* (signal, timer) := timeoutSignal TIMEOUT in
  let* returned :=
    try_finally
      (try_catch
         (let* res := fetch (buildURL endpoint) (fetch_init options signal) in
          if negb (res_ok res.1) then
            let errorData := JNull in
            let* text := Response_text res in
            let* errorData :=
              try_catch
                (if truthy text then parse text else ret JNull)
                (λ _, ret (JString text)) in
            throw (Object_assign
                     (new_Error (if truthy text then text
                                 else res_statusText res.1))
                     (res_status res.1) errorData)
          else if res_status res.1 =? 204 then ret (Value JUndefined)
          else
            let contentType := headers_get res "content-type" in
            if from_option (λ ct, includes ct "application/json") false contentType
            then ret (Promise (Response_json res))
            else ret (Promise (let* text := Response_text res in
                               ret (JString text))))
         (λ error, let* _ := console_error error in throw error))
      (clearTimeout timer) in
  match returned with
  | Value v => ret v
  | Promise p => p
  end.

(** ** [httpClient] *)

Definition no_options : Options :=
  {| opt_method := None; opt_headers := None;
     opt_body := None; opt_jsonBody := None |}.

Definition with_method (init : option Options) (method : string)
           (jsonBody : option JSValue) : Options :=
  let init := default no_options init in
  {| opt_method := Some method; opt_headers := opt_headers init;
     opt_body := opt_body init; opt_jsonBody := jsonBody |}.

Definition get (url : string) (init : option Options) : M JSValue :=
  request url (with_method init "GET" None).

Definition post (url : string) (body : option JSValue) (init : option Options)
  : M JSValue :=
  request url (with_method init "POST" body).

Definition put (url : string) (body : option JSValue) (init : option Options)
  : M JSValue :=
  request url (with_method init "PUT" body).

Definition patch (url : string) (body : option JSValue) (init : option Options)
  : M JSValue :=
  request url (with_method init "PATCH" body).

Definition del (url : string) (init : option Options) : M JSValue :=
  request url (with_method init "DELETE" None).

End Client.

End Http.

(* ===================================================================== *)
(** * bus-assembler.ts, bus-api.ts, bus-service.ts *)
(* ===================================================================== *)

Module BusResource.
Record t := {
  id : Z;
  busNumber : Z;
  licensePlate : string;
  brand : string;
  characteristics : string;
  isActive : bool;
  createdAt : string
}.
End BusResource.

Module Bus.
Record t := {
  id : Z;
  busNumber : Z;
  licensePlate : string;
  brand : string;
  characteristics : string;
  isActive : bool;
  createdAt : string
}.
End Bus.

Module Sort.
Record t := { empty : bool; sorted : bool; unsorted : bool }.
End Sort.

Module Pageable.
Record t := {
  pageNumber : Z;
  pageSize : Z;
  sort : Sort.t;
  offset : Z;
  paged : bool;
  unpaged : bool
}.
End Pageable.

Module PaginatedBusResponse.
Record t := {
  content : list BusResource.t;
  pageable : Pageable.t;
  last : bool;
  totalElements : Z;
  totalPages : Z;
  size : Z;
  number : Z;
  sort : Sort.t;
  first : bool;
  numberOfElements : Z;
  empty : bool
}.
End PaginatedBusResponse.

Module PaginatedBusResult.
Record t := {
  buses : list Bus.t;
  totalElements : Z;
  totalPages : Z;
  currentPage : Z;
  pageSize : Z;
  isFirst : bool;
  isLast : bool
}.
End PaginatedBusResult.

Module BusAssembler.

Definition toEntityFromResource (resource : BusResource.t) : Bus.t :=
  {| Bus.id := BusResource.id resource;
     Bus.busNumber := BusResource.busNumber resource;
     Bus.licensePlate := BusResource.licensePlate resource;
     Bus.brand := BusResource.brand resource;
     Bus.isActive := BusResource.isActive resource;
     Bus.characteristics := BusResource.characteristics resource;
     Bus.createdAt := BusResource.createdAt resource |}.

Definition toEntitiesFromPaginatedResponse (response : PaginatedBusResponse.t)
  : list Bus.t :=
  toEntityFromResource <$> PaginatedBusResponse.content response.

Definition toPaginatedResult (response : PaginatedBusResponse.t)
  : PaginatedBusResult.t :=
  {| PaginatedBusResult.buses := toEntitiesFromPaginatedResponse response;
     PaginatedBusResult.totalElements := PaginatedBusResponse.totalElements response;
     PaginatedBusResult.totalPages := PaginatedBusResponse.totalPages response;
     PaginatedBusResult.currentPage := PaginatedBusResponse.number response;
     PaginatedBusResult.pageSize := PaginatedBusResponse.size response;
     PaginatedBusResult.isFirst := PaginatedBusResponse.first response;
     PaginatedBusResult.isLast := PaginatedBusResponse.last response |}.

End BusAssembler.

Module BusService.
Import Http.

Section Service.

Variable env : Platform.

(** The type assertion [httpClient.get<PaginatedBusResponse>]: nothing
    is checked when the value arrives.  On the right, the [TypeError]
    that reading [response.content.map] raises inside
    [toPaginatedResult] when the value has no [content] array. *)
Variable as_PaginatedBusResponse : JSValue → PaginatedBusResponse.t + ErrorObj.

(** [new BusApi()]: the constructor falls back on the default path. *)
Definition endpointPath (custom : option string) : string :=
  match custom with
  | Some path => if truthy path then path else "/api/v1/buses"
  | None => "/api/v1/buses"
  end.

(** [BusApi.getPaginatedBuses] *)
Definition getPaginatedBuses (page size : Z) : M JSValue :=
  try_catch
    (let url := String.append (endpointPath None)
                  (String.append "?paginated=true&page="
                     (String.append (pretty page)
                        (String.append "&size=" (pretty size)))) in
     let* response := get env url None in
     ret response)
    (λ error, let* _ := console_error error in throw error).

(** [busService.getPaginated] *)
Definition getPaginated (page size : Z) : M PaginatedBusResult.t :=
  try_catch
    (let* response := getPaginatedBuses page size in
     match as_PaginatedBusResponse response with
     | inl response => ret (BusAssembler.toPaginatedResult response)
     | inr type_error => throw type_error
     end)
    (λ error, throw error).

End Service.

End BusService.

(** ** The page-metadata invariants of the data model *)

(** [ceil(a / b)] on integers. *)
Definition ceil_div (a b : Z) : Z := - ((- a) / b).

Definition page_invariants (r : PaginatedBusResult.t) : Prop :=
  (PaginatedBusResult.totalElements r > 0 →
   0 ≤ PaginatedBusResult.currentPage r < PaginatedBusResult.totalPages r) ∧
  (PaginatedBusResult.pageSize r > 0 →
   PaginatedBusResult.totalPages r =
   ceil_div (PaginatedBusResult.totalElements r) (PaginatedBusResult.pageSize r)) ∧
  PaginatedBusResult.isFirst r = (PaginatedBusResult.currentPage r =? 0) ∧
  PaginatedBusResult.isLast r =
  (PaginatedBusResult.currentPage r =? PaginatedBusResult.totalPages r - 1).

(** The same four conditions read off the fields of the page envelope. *)
Definition envelope_invariants (e : PaginatedBusResponse.t) : Prop :=
  (PaginatedBusResponse.totalElements e > 0 →
   0 ≤ PaginatedBusResponse.number e < PaginatedBusResponse.totalPages e) ∧
  (PaginatedBusResponse.size e > 0 →
   PaginatedBusResponse.totalPages e =
   ceil_div (PaginatedBusResponse.totalElements e) (PaginatedBusResponse.size e)) ∧
  PaginatedBusResponse.first e = (PaginatedBusResponse.number e =? 0) ∧
  PaginatedBusResponse.last e =
  (PaginatedBusResponse.number e =? PaginatedBusResponse.totalPages e - 1).

(* ===================================================================== *)
(** * A reference platform, to run the model on concrete exchanges *)
(* ===================================================================== *)

(** A reader and a printer for the JSON texts of the examples: objects,
    arrays, strings without escapes, integers and the three literals.
    They stand for the built-in [JSON.parse] and [JSON.stringify] when the
    model is evaluated; the general results quantify over every platform. *)
Module Json.
Import Http.

Definition dquote : ascii := ascii_of_nat 34.

Definition is_space (c : ascii) : bool :=
  (Ascii.eqb c " " || Ascii.eqb c (ascii_of_nat 9)
   || Ascii.eqb c (ascii_of_nat 10) || Ascii.eqb c (ascii_of_nat 13))%bool.

Fixpoint skip_space (cs : list ascii) : list ascii :=
  match cs with
  | c :: rest => if is_space c then skip_space rest else cs
  | [] => []
  end.

Definition digit_of (c : ascii) : option Z :=
  let n := Z.of_nat (nat_of_ascii c) in
  if (48 <=? n) && (n <=? 57) then Some (n - 48) else None.

(** The characters of a string up to its closing quote. *)
Fixpoint read_chars (cs : list ascii) (acc : string) : option (string * list ascii) :=
  match cs with
  | [] => None
  | c :: rest =>
      if Ascii.eqb c dquote then Some (String.rev acc, rest)
      else if Ascii.eqb c "\" then None
      else read_chars rest (String c acc)
  end.

Fixpoint read_digits (cs : list ascii) (acc : Z) : Z * list ascii :=
  match cs with
  | c :: rest =>
      match digit_of c with
      | Some d => read_digits rest (10 * acc + d)
      | None => (acc, cs)
      end
  | [] => (acc, [])
  end.

Definition is_digit (c : ascii) : bool := bool_decide (is_Some (digit_of c)).

Definition ends_number (rest : list ascii) : bool :=
  match rest with
  | c :: _ => negb (Ascii.eqb c "." || Ascii.eqb c "e" || Ascii.eqb c "E")
  | [] => true
  end.

Definition read_number (cs : list ascii) : option (Z * list ascii) :=
  match cs with
  | c :: rest =>
      if is_digit c then
        match cs with
        | "0"%char :: d :: _ => if is_digit d then None else Some (0, rest)
        | _ => Some (read_digits cs 0)
        end
      else None
  | [] => None
  end.

Fixpoint strip_prefix (word cs : list ascii) : option (list ascii) :=
  match word, cs with
  | [], _ => Some cs
  | w :: word', c :: cs' => if Ascii.eqb w c then strip_prefix word' cs' else None
  | _ :: _, [] => None
  end.

Fixpoint read_value (fuel : nat) (cs : list ascii) : option (JSValue * list ascii) :=
  match fuel with
  | O => None
  | S fuel' =>
      match skip_space cs with
      | "n"%char :: _ =>
          rest ← strip_prefix (list_ascii_of_string "null") (skip_space cs);
          Some (JNull, rest)
      | "t"%char :: _ =>
          rest ← strip_prefix (list_ascii_of_string "true") (skip_space cs);
          Some (JBool true, rest)
      | "f"%char :: _ =>
          rest ← strip_prefix (list_ascii_of_string "false") (skip_space cs);
          Some (JBool false, rest)
      | "["%char :: rest =>
          match skip_space rest with
          | "]"%char :: rest' => Some (JArray [], rest')
          | _ => read_elements fuel' rest []
          end
      | "{"%char :: rest =>
          match skip_space rest with
          | "}"%char :: rest' => Some (JObject [], rest')
          | _ => read_members fuel' rest []
          end
      | "-"%char :: rest =>
          '(n, rest') ← read_number rest;
          if ends_number rest' then Some (JNumber (- n), rest') else None
      | c :: rest =>
          if Ascii.eqb c dquote then
            '(s, rest') ← read_chars rest EmptyString;
            Some (JString s, rest')
          else
            '(n, rest') ← read_number (c :: rest);
            if ends_number rest' then Some (JNumber n, rest') else None
      | [] => None
      end
  end
with read_elements (fuel : nat) (cs : list ascii) (acc : list JSValue)
     : option (JSValue * list ascii) :=
  match fuel with
  | O => None
  | S fuel' =>
      '(v, rest) ← read_value fuel' cs;
      match skip_space rest with
      | ","%char :: rest' => read_elements fuel' rest' (v :: acc)
      | "]"%char :: rest' => Some (JArray (reverse (v :: acc)), rest')
      | _ => None
      end
  end
with read_members (fuel : nat) (cs : list ascii) (acc : list (string * JSValue))
     : option (JSValue * list ascii) :=
  match fuel with
  | O => None
  | S fuel' =>
      match skip_space cs with
      | c :: rest =>
          if Ascii.eqb c dquote then
            '(k, rest) ← read_chars rest EmptyString;
            match skip_space rest with
            | ":"%char :: rest =>
                '(v, rest) ← read_value fuel' rest;
                match skip_space rest with
                | ","%char :: rest' => read_members fuel' rest' ((k, v) :: acc)
                | "}"%char :: rest' => Some (JObject (reverse ((k, v) :: acc)), rest')
                | _ => None
                end
            | _ => None
            end
          else None
      | [] => None
      end
  end.

Definition read (text : string) : option JSValue :=
  '(v, rest) ← read_value (S (String.length text)) (list_ascii_of_string text);
  match skip_space rest with
  | [] => Some v
  | _ :: _ => None
  end.

Definition quoted (s : string) : string :=
  String dquote (String.append s (String dquote EmptyString)).

Fixpoint join (sep : string) (parts : list string) : string :=
  match parts with
  | [] => EmptyString
  | [x] => x
  | x :: rest => String.append x (String.append sep (join sep rest))
  end.

Fixpoint print (v : JSValue) : string :=
  match v with
  | JUndefined => "undefined"
  | JNull => "null"
  | JBool true => "true"
  | JBool false => "false"
  | JNumber n => pretty n
  | JString s => quoted s
  | JArray elements =>
      String.append "[" (String.append (join "," (List.map print elements)) "]")
  | JObject members =>
      String.append "{"
        (String.append
           (join "," (List.map (λ kv, String.append (quoted (fst kv))
                                        (String.append ":" (print (snd kv))))
                               members)) "}")
  end.

(** Writing a JSON text with ['] where it has a double quote. *)
Fixpoint requote (s : string) : string :=
  match s with
  | EmptyString => EmptyString
  | String c rest =>
      String (if Ascii.eqb c "'" then dquote else c) (requote rest)
  end.

End Json.

(** Reading a parsed page envelope at the type the client asserts.  The
    seven members [toPaginatedResult] reads must be there with their types;
    the members it never reads fall back on defaults.  Any other value is
    answered with the [TypeError] of [response.content.map]. *)
Module Envelope.
Import Http.

Definition member (name : string) (v : JSValue) : option JSValue :=
  match v with
  | JObject members => snd <$> List.find (λ kv, String.eqb (fst kv) name) members
  | _ => None
  end.

Definition number_at (name : string) (v : JSValue) : option Z :=
  match member name v with
  | Some (JNumber n) => Some n
  | _ => None
  end.

Definition string_at (name : string) (v : JSValue) : option string :=
  match member name v with
  | Some (JString s) => Some s
  | _ => None
  end.

Definition bool_at (name : string) (v : JSValue) : option bool :=
  match member name v with
  | Some (JBool b) => Some b
  | _ => None
  end.

Definition array_at (name : string) (v : JSValue) : option (list JSValue) :=
  match member name v with
  | Some (JArray elements) => Some elements
  | _ => None
  end.

Definition resource (v : JSValue) : option BusResource.t :=
  id ← number_at "id" v;
  busNumber ← number_at "busNumber" v;
  licensePlate ← string_at "licensePlate" v;
  brand ← string_at "brand" v;
  characteristics ← string_at "characteristics" v;
  isActive ← bool_at "isActive" v;
  createdAt ← string_at "createdAt" v;
  Some {| BusResource.id := id; BusResource.busNumber := busNumber;
          BusResource.licensePlate := licensePlate; BusResource.brand := brand;
          BusResource.characteristics := characteristics;
          BusResource.isActive := isActive; BusResource.createdAt := createdAt |}.

Definition sort_of (v : option JSValue) : Sort.t :=
  {| Sort.empty := default true (v ≫= bool_at "empty");
     Sort.sorted := default false (v ≫= bool_at "sorted");
     Sort.unsorted := default true (v ≫= bool_at "unsorted") |}.

Definition pageable_of (v : option JSValue) : Pageable.t :=
  {| Pageable.pageNumber := default 0 (v ≫= number_at "pageNumber");
     Pageable.pageSize := default 0 (v ≫= number_at "pageSize");
     Pageable.sort := sort_of (v ≫= member "sort");
     Pageable.offset := default 0 (v ≫= number_at "offset");
     Pageable.paged := default true (v ≫= bool_at "paged");
     Pageable.unpaged := default false (v ≫= bool_at "unpaged") |}.

Definition envelope (v : JSValue) : option PaginatedBusResponse.t :=
  elements ← array_at "content" v;
  content ← mapM resource elements;
  totalElements ← number_at "totalElements" v;
  totalPages ← number_at "totalPages" v;
  number ← number_at "number" v;
  size ← number_at "size" v;
  first ← bool_at "first" v;
  last ← bool_at "last" v;
  Some {| PaginatedBusResponse.content := content;
          PaginatedBusResponse.pageable := pageable_of (member "pageable" v);
          PaginatedBusResponse.last := last;
          PaginatedBusResponse.totalElements := totalElements;
          PaginatedBusResponse.totalPages := totalPages;
          PaginatedBusResponse.size := size;
          PaginatedBusResponse.number := number;
          PaginatedBusResponse.sort := sort_of (member "sort" v);
          PaginatedBusResponse.first := first;
          PaginatedBusResponse.numberOfElements :=
            default (Z.of_nat (List.length content)) (number_at "numberOfElements" v);
          PaginatedBusResponse.empty :=
            default (bool_decide (content = [])) (bool_at "empty" v) |}.

#[global] Instance BusResource_eq_dec : EqDecision BusResource.t.
Proof. solve_decision. Defined.

End Envelope.

Module Reference.
Import Http.

Definition platform_error (name message : string) : ErrorObj :=
  {| err_name := name; err_message := message;
     err_status := None; err_data := None |}.

Definition syntax_error : ErrorObj :=
  platform_error "SyntaxError" "Unexpected token in JSON".

Definition abort_error : ErrorObj :=
  platform_error "AbortError" "signal is aborted without reason".

Definition type_error : ErrorObj :=
  platform_error "TypeError" "Cannot read properties of undefined (reading 'map')".

Definition network_error : ErrorObj :=
  platform_error "TypeError" "Failed to fetch".

(** A browser in front of the given server. *)
Definition browser (server : string → FetchInit → Exchange) : Platform :=
  {| BASE_URL := "http://localhost:8080";
     JSON_parse := λ text, from_option inl (inr syntax_error) (Json.read text);
     JSON_stringify := Json.print;
     abort_reason := abort_error;
     network := server |}.

Definition as_PaginatedBusResponse (v : JSValue)
  : PaginatedBusResponse.t + ErrorObj :=
  from_option inl (inr type_error) (Envelope.envelope v).

(** A fresh page: no timer armed, nothing logged. *)
Definition idle : World :=
  {| next_timer := 0; next_ctrl := 0; timers := ∅; aborted := ∅; trace := [] |}.

Definition json_headers : gmap string string :=
  {[ "content-type" := "application/json" ]}.

(** A server that answers every request the same way, in time. *)
Definition answers (status : Z) (statusText : string)
           (headers : gmap string string) (body : string)
  : string → FetchInit → Exchange :=
  λ _ _, {| timing := InTime;
            outcome := inl {| res_status := status; res_statusText := statusText;
                              res_headers := headers;
                              res_body_timing := InTime;
                              res_body := inl body |} |}.

(** A server that sends nothing before the deadline. *)
Definition silent : string → FetchInit → Exchange :=
  λ _ _, {| timing := Late; outcome := inr network_error |}.

(** A server that cannot be reached. *)
Definition unreachable : string → FetchInit → Exchange :=
  λ _ _, {| timing := InTime; outcome := inr network_error |}.

(** The exchanges of the examples. *)
Definition not_found_body : string := Json.requote "{'error':'not found'}".

Definition not_found_server : string → FetchInit → Exchange :=
  answers 404 "Not Found" json_headers not_found_body.

Definition failing_server : string → FetchInit → Exchange :=
  answers 500 "Internal Server Error" ∅ EmptyString.

Definition gateway_server : string → FetchInit → Exchange :=
  answers 502 "Bad Gateway" ∅ "<html>Bad Gateway</html>".

Definition no_content_server : string → FetchInit → Exchange :=
  answers 204 "No Content" ∅ EmptyString.

Definition stray_page_body : string :=
  Json.requote
    "{'content':[],'totalElements':5,'totalPages':0,'number':3,'size':5,'first':false,'last':false}".

Definition stray_page_server : string → FetchInit → Exchange :=
  answers 200 "OK" json_headers stray_page_body.

End Reference.

(* ===================================================================== *)
(** * Vocabulary of the statements about [request] *)
(* ===================================================================== *)

Module Observe.
Import Http.

(** The log of [w'] continues the log of [w]. *)
Definition continues (w w' : World) : Prop :=
  ∃ events, trace w' = trace w ++ events.

(** No timer that was disarmed in [w] is armed in [w']. *)
Definition arms_nothing (w w' : World) : Prop :=
  ∀ id, timers w !! id = None → timers w' !! id = None.

(** A computation that only adds to the log, arms no timer, and whose
    normal results satisfy [Q]. *)
Definition tame {A} (Q : A → Prop) (m : M A) : Prop :=
  ∀ w, continues w (m w).2 ∧ arms_nothing w (m w).2
       ∧ ∀ a, (m w).1 = Normal a → Q a.

(** What a [Returned] leaves to be waited for is tame as well. *)
Definition tame_returned (r : Returned) : Prop :=
  match r with
  | Value _ => True
  | Promise p => tame (λ _, True) p
  end.

(** The error payload as the specification words it: the parsed body
    when parsing succeeds, the raw text otherwise. *)
Definition payload_as_specified (env : Platform) (text : string) : JSValue :=
  match JSON_parse env text with
  | inl parsed => parsed
  | inr _ => JString text
  end.

(** The error payload [request] builds: an empty body is not parsed and
    gives [null]. *)
Definition payload_built (env : Platform) (text : string) : JSValue :=
  if truthy text then payload_as_specified env text else JNull.

(** The events of one call that touch the response body. *)
Definition touches_body (ev : Event) : Prop :=
  match ev with
  | EvReadBody | EvJSONParse _ => True
  | _ => False
  end.

End Observe.

(* ===================================================================== *)
(** * Vocabulary of the statements about rendered views *)
(* ===================================================================== *)

Module Shown.


(** The page list the component renders for a window. *)
Definition page_list (currentPage totalPages : Z) (loading : bool)
  : list Pagination.Item :=
  imap (Pagination.render_page currentPage loading)
       (Pagination.getVisiblePages currentPage totalPages).

(** Two states of the component over 23 elements in pages of 5. *)
Definition third_page_of_23 : Pagination.Props :=
  {| Pagination.currentPage := 2; Pagination.totalPages := 5;
     Pagination.totalElements := 23; Pagination.pageSize := None;
     Pagination.loading := None |}.

Definition last_page_of_23 : Pagination.Props :=
  {| Pagination.currentPage := 4; Pagination.totalPages := 5;
     Pagination.totalElements := 23; Pagination.pageSize := None;
     Pagination.loading := None |}.

End Shown.

(* ===================================================================== *)
(** * The parts of [request], and worlds with several calls *)
(* ===================================================================== *)

Module Parts.
Import Http.

(** What [request] does with a response once [fetch] has resolved. *)
Definition settle (env : Platform) (res : Response * nat) : M Returned :=
  if negb (res_ok res.1) then
    let errorData := JNull in
    let* text := Response_text env res in
    let* errorData :=
      try_catch
        (if truthy text then parse env text else ret JNull)
        (λ _, ret (JString text)) in
    throw (Object_assign
             (new_Error (if truthy text then text
                         else res_statusText res.1))
             (res_status res.1) errorData)
  else if res_status res.1 =? 204 then ret (Value JUndefined)
  else
    let contentType := headers_get res "content-type" in
    if from_option (λ ct, includes ct "application/json") false contentType
    then ret (Promise (Response_json env res))
    else ret (Promise (let* text := Response_text env res in
                       ret (JString text))).

(** The [catch] block of [request]. *)
Definition on_error (error : ErrorObj) : M Returned :=
  let* _ := console_error error in throw error.

(** The [try]/[catch] statement of [request]. *)
Definition attempt (env : Platform) (endpoint : string) (options : Options)
           (signal : nat) : M Returned :=
  try_catch
    (let* res := fetch env (buildURL env endpoint)
                   (fetch_init env options signal) in
     settle env res)
    on_error.

(** What the caller of [request] waits for. *)
Definition finish (returned : Returned) : M JSValue :=
  match returned with
  | Value v => ret v
  | Promise p => p
  end.

(** No armed timer of [w] aborts the controller [ctrl]. *)
Definition unguarded (ctrl : nat) (w : World) : Prop :=
  ∀ id, timers w !! id ≠ Some (ctrl_abort ctrl).


Definition is_fetch (ev : Event) : Prop :=
  match ev with
  | EvFetch _ _ => True
  | _ => False
  end.

Definition is_console_error (ev : Event) : Prop :=
  match ev with
  | EvConsoleError _ => True
  | _ => False
  end.

(** The events a call may log once its one [fetch] has been issued. *)
Definition after_fetch (ev : Event) : Prop :=
  match ev with
  | EvFetch _ _ | EvSetTimeout _ _ | EvClearTimeout _ => False
  | _ => True
  end.

(** What [attempt] does once its [fetch] is on the wire. *)
Definition answer (env : Platform) (endpoint : string) (options : Options)
           (signal : nat) : M Returned :=
  let exchange := network env (buildURL env endpoint)
                    (fetch_init env options signal) in
  try_catch
    (let* res := (let* res := await env signal (timing exchange)
                                (outcome exchange) in
                  ret (res, signal)) in
     settle env res)
    on_error.

(** A computation every step of which is in the relation [step], and
    whose normal results satisfy [Q]. *)
Definition keeps (step : World → World → Prop) {A} (Q : A → Prop) (m : M A)
  : Prop :=
  ∀ w, step w (m w).2 ∧ ∀ a, (m w).1 = Normal a → Q a.

Definition returned_keeps (step : World → World → Prop) (r : Returned) : Prop :=
  match r with
  | Value _ => True
  | Promise p => keeps step (λ _, True) p
  end.

(** [w'] has the log of [w] and then only events that are [allowed]. *)
Definition logs_only (allowed : Event → Prop) (w w' : World) : Prop :=
  ∃ events, trace w' = trace w ++ events ∧ Forall allowed events.


End Parts.

(* ===================================================================== *)
(** * The unpaginated list *)
(* ===================================================================== *)

Module BusesResponse.
Record t := {
  buses : list BusResource.t;
  total : Z
}.
End BusesResponse.

Module Fleet.

(** [BusAssembler.toEntitiesFromResponse] *)
Definition toEntitiesFromResponse (response : BusesResponse.t) : list Bus.t :=
  BusAssembler.toEntityFromResource <$> BusesResponse.buses response.

(** The unpaginated list is handled without any check of its shape, so
    here the values are the values of the language.  The members of a
    [JObject] are its own properties, each name once. *)

Import Http.

(** [v.name], for the property names this client reads (none of them is
    a property of a string, a number, a boolean or an array): the member
    when [v] is an object that has it, [undefined] otherwise.  Reading a
    property of [null] or [undefined] throws ([None]). *)
Definition get_prop (name : string) (v : JSValue) : option JSValue :=
  match v with
  | JUndefined | JNull => None
  | _ => Some (default JUndefined (Envelope.member name v))
  end.

(** A value in condition position. *)
Definition truthy_value (v : JSValue) : bool :=
  match v with
  | JUndefined | JNull => false
  | JBool b => b
  | JNumber n => negb (n =? 0)
  | JString s => truthy s
  | JArray _ | JObject _ => true
  end.

Definition Array_isArray (v : JSValue) : bool :=
  match v with
  | JArray _ => true
  | _ => false
  end.

(** [a && b], where reading [b] needs [a] to be truthy. *)
Definition and_then (a : JSValue) (b : JSValue) : JSValue :=
  if truthy_value a then b else a.

(** The object literal of [toEntityFromResource], for a resource whose
    properties can be read. *)
Definition entity_of (resource : JSValue) : JSValue :=
  let read name := default JUndefined (get_prop name resource) in
  JObject [("id", read "id");
           ("busNumber", read "busNumber");
           ("licensePlate", read "licensePlate");
           ("brand", read "brand");
           ("isActive", read "isActive");
           ("characteristics", read "characteristics");
           ("createdAt", read "createdAt")].

(** The values whose properties cannot be read. *)
Definition nullish (v : JSValue) : bool :=
  match v with
  | JUndefined | JNull => true
  | _ => false
  end.

Section Untyped.

Variable env : Platform.

(** The [TypeError] of reading a property of [null] or [undefined]. *)
Variable type_error : JSValue → ErrorObj.

(** [BusAssembler.toEntityFromResource], on any value. *)
Definition toEntityFromResource (resource : JSValue) : JSValue + ErrorObj :=
  match resource with
  | JUndefined | JNull => inr (type_error resource)
  | _ => inl (entity_of resource)
  end.

(** [elements.map(f)] for an [f] that may throw: the first failure ends
    the loop. *)
Fixpoint Array_map (f : JSValue → JSValue + ErrorObj) (elements : list JSValue)
  : M (list JSValue) :=
  match elements with
  | [] => ret []
  | element :: rest =>
      match f element with
      | inl mapped => let* others := Array_map f rest in ret (mapped :: others)
      | inr error => throw error
      end
  end.

(** [BusApi.getAllBuses] *)
Definition getAllBuses : M JSValue :=
  try_catch
    (let* response := get env (BusService.endpointPath None) None in
     if Array_isArray response then ret response
     else
       let buses := default JUndefined (get_prop "buses" response) in
       if truthy_value (and_then response buses) then ret buses
       else ret (JArray []))
    (λ error, let* _ := console_error error in throw error).

(** [busService.getAll] *)
Definition getAll : M (list JSValue) :=
  try_catch
    (let* resources := getAllBuses in
     if negb (truthy_value resources) then ret []
     else
       match resources with
       | JArray elements => Array_map toEntityFromResource elements
       | _ => ret []
       end)
    (λ error, throw error).

End Untyped.

(** The array of resources [getAll] finds in a response, if any: the
    response itself, or its member [buses]. *)
Definition resources_in (response : JSValue) : option (list JSValue) :=
  match response with
  | JArray elements => Some elements
  | JObject _ =>
      match Envelope.member "buses" response with
      | Some (JArray elements) => Some elements
      | _ => None
      end
  | _ => None
  end.

(** Reading an entity built by the assembler at the type [Bus]. *)
Definition bus_of (v : JSValue) : option Bus.t :=
  id ← Envelope.number_at "id" v;
  busNumber ← Envelope.number_at "busNumber" v;
  licensePlate ← Envelope.string_at "licensePlate" v;
  brand ← Envelope.string_at "brand" v;
  characteristics ← Envelope.string_at "characteristics" v;
  isActive ← Envelope.bool_at "isActive" v;
  createdAt ← Envelope.string_at "createdAt" v;
  Some {| Bus.id := id; Bus.busNumber := busNumber;
          Bus.licensePlate := licensePlate; Bus.brand := brand;
          Bus.characteristics := characteristics;
          Bus.isActive := isActive; Bus.createdAt := createdAt |}.

End Fleet.

(* ===================================================================== *)
(** * useBuses.ts *)
(* ===================================================================== *)

Module Hook.

Record PaginationData := {
  currentPage : Z;
  totalPages : Z;
  totalElements : Z;
  pageSize : Z;
  isFirst : bool;
  isLast : bool
}.

(** The four state cells of [useBuses]. *)
Record State := {
  buses : list Bus.t;
  loading : bool;
  error : option string;
  pagination : option PaginationData
}.

(** The initial values passed to [useState]. *)
Definition initial : State :=
  {| buses := []; loading := true; error := None; pagination := None |}.

Definition setBuses (value : list Bus.t) (st : State) : State :=
  {| buses := value; loading := loading st; error := error st;
     pagination := pagination st |}.

Definition setLoading (value : bool) (st : State) : State :=
  {| buses := buses st; loading := value; error := error st;
     pagination := pagination st |}.

Definition setError (value : option string) (st : State) : State :=
  {| buses := buses st; loading := loading st; error := value;
     pagination := pagination st |}.

Definition setPagination (value : option PaginationData) (st : State) : State :=
  {| buses := buses st; loading := loading st; error := error st;
     pagination := value |}.

(** The object literal passed to [setPagination]. *)
Definition metadata_of (result : PaginatedBusResult.t) : PaginationData :=
  {| currentPage := PaginatedBusResult.currentPage result;
     totalPages := PaginatedBusResult.totalPages result;
     totalElements := PaginatedBusResult.totalElements result;
     pageSize := PaginatedBusResult.pageSize result;
     isFirst := PaginatedBusResult.isFirst result;
     isLast := PaginatedBusResult.isLast result |}.

(** [fetchBuses] up to its [await]: the state shown while the request is
    on its way. *)
Definition pending (st : State) : State :=
  let st := setLoading true st in
  setError None st.

(** [fetchBuses] from its [await] on: the rest of the [try] block, the
    [catch] block and the [finally] block.  Every value thrown in this
    client is an [Error], so the message shown is its [message]. *)
Definition completed (outcome : Http.Completion PaginatedBusResult.t)
           (st : State) : State :=
  let st :=
    match outcome with
    | Http.Normal result =>
        let st := setBuses (PaginatedBusResult.buses result) st in
        setPagination (Some (metadata_of result)) st
    | Http.Throw err =>
        let errorMessage := Http.err_message err in
        setError (Some errorMessage) st
    end in
  setLoading false st.

Section Fetch.

Variable env : Http.Platform.
Variable as_page : Http.JSValue → PaginatedBusResponse.t + Http.ErrorObj.

(** [fetchBuses(currentPage, pageSize)] run to its end. *)
Definition fetchBuses (currentPage pageSize : Z) (st : State) (w : Http.World)
  : State * Http.World :=
  let st := pending st in
  let settled := BusService.getPaginated env as_page currentPage pageSize w in
  (completed settled.1 st, settled.2).

(** The effect of [useBuses(page)] and [refetch]: both call
    [fetchBuses(page)], with the default page size. *)
Definition refetch (page : Z) (st : State) (w : Http.World) : State * Http.World :=
  fetchBuses page 5 st w.

End Fetch.


End Hook.

(* ===================================================================== *)
(** * BusPage.tsx, BusTable.tsx, BusPageHeader.tsx *)
(* ===================================================================== *)

Module BusPage.

(** One row of the table. *)
Record Row := {
  key : Z;
  busNumber : Z;
  licensePlate : string;
  brand : string;
  characteristics : string;
  activeLabel : string;
  createdOn : string
}.

Inductive Table :=
| Spinner
| NoBuses
| Rows (rows : list Row).

(** The header with its refresh button and the three statistics cards. *)
Record Header := {
  total : Z;
  active : nat;
  inactive : nat;
  refresh_disabled : bool;
  refresh_label : string
}.

Inductive View :=
| ErrorPanel (message : string)
| Page (header : Header) (table : Table) (pagination : option Pagination.View).

Section Render.

(** [new Date(s).toLocaleDateString()], which depends on the locale. *)
Variable toLocaleDateString : string → string.

Definition BusTable (buses : list Bus.t) (loading : bool) : Table :=
  if loading then Spinner
  else if (List.length buses =? 0)%nat then NoBuses
  else Rows ((λ bus,
               {| key := Bus.id bus;
                  busNumber := Bus.busNumber bus;
                  licensePlate := Bus.licensePlate bus;
                  brand := Bus.brand bus;
                  characteristics := Bus.characteristics bus;
                  activeLabel := if Bus.isActive bus then "Yes" else "No";
                  createdOn := toLocaleDateString (Bus.createdAt bus) |})
             <$> buses).

Definition BusPageHeader (total : Z) (active inactive : nat) (loading : bool)
  : Header :=
  {| total := total; active := active; inactive := inactive;
     refresh_disabled := loading;
     refresh_label := if loading then "Refreshing..." else "Refresh" |}.

(** The component, for the page index it holds and the state of the
    hook. *)
Definition BusPage (currentPage : Z) (st : Hook.State) : View :=
  let buses := Hook.buses st in
  let loading := Hook.loading st in
  let page :=
    let activeBuses := List.filter (λ bus, Bus.isActive bus) buses in
    let inactiveBuses := List.filter (λ bus, negb (Bus.isActive bus)) buses in
    (* the mock object has no [isFirst] and [isLast]; nothing reads them *)
    let mockPagination :=
      {| Hook.currentPage := currentPage;
         Hook.totalPages := ceil_div (Z.of_nat (List.length buses)) 5;
         Hook.totalElements := Z.of_nat (List.length buses);
         Hook.pageSize := 5;
         Hook.isFirst := false; Hook.isLast := false |} in
    let paginationData := default mockPagination (Hook.pagination st) in
    Page (BusPageHeader (Hook.totalElements paginationData)
                        (List.length activeBuses) (List.length inactiveBuses)
                        loading)
         (BusTable buses loading)
         (if Hook.totalPages paginationData >? 1
          then Pagination.Pagination
                 {| Pagination.currentPage := Hook.currentPage paginationData;
                    Pagination.totalPages := Hook.totalPages paginationData;
                    Pagination.totalElements := Hook.totalElements paginationData;
                    Pagination.pageSize := Some (Hook.pageSize paginationData);
                    Pagination.loading := Some loading |}
          else None) in
  match Hook.error st with
  | Some message => if Http.truthy message then ErrorPanel message else page
  | None => page
  end.

End Render.

End BusPage.

(* ===================================================================== *)
(** * More exchanges, to run the model on *)
(* ===================================================================== *)

Module Scenes.
Import Http.

(** A first page of three, with one bus on it. *)
Definition page_body : string :=
  Json.requote
    "{'content':[{'id':1,'busNumber':101,'licensePlate':'ABC-123','brand':'Volvo','characteristics':'WiFi','isActive':true,'createdAt':'2023-01-01T00:00:00Z'}],'totalElements':12,'totalPages':3,'number':0,'size':5,'first':true,'last':false}".

(** The same bus, as the whole list. *)
Definition fleet_body : string :=
  Json.requote
    "[{'id':1,'busNumber':101,'licensePlate':'ABC-123','brand':'Volvo','characteristics':'WiFi','isActive':true,'createdAt':'2023-01-01T00:00:00Z'}]".

Definition the_bus : BusResource.t :=
  {| BusResource.id := 1; BusResource.busNumber := 101;
     BusResource.licensePlate := "ABC-123"; BusResource.brand := "Volvo";
     BusResource.characteristics := "WiFi"; BusResource.isActive := true;
     BusResource.createdAt := "2023-01-01T00:00:00Z" |}.

(** A response whose head is in time and whose body is late. *)
Definition slow_body (status : Z) (statusText : string)
           (headers : gmap string string) (body : string) : Response :=
  {| res_status := status; res_statusText := statusText;
     res_headers := headers; res_body_timing := Late;
     res_body := inl body |}.

Definition slow_page_server : string → FetchInit → Exchange :=
  λ _ _, {| timing := InTime;
            outcome := inl (slow_body 200 "OK" Reference.json_headers page_body) |}.

Definition slow_error_server : string → FetchInit → Exchange :=
  λ _ _, {| timing := InTime;
            outcome := inl (slow_body 503 "Service Unavailable" ∅
                              "try again later") |}.

Definition fleet_server : string → FetchInit → Exchange :=
  Reference.answers 200 "OK" Reference.json_headers fleet_body.

(** A failure without a body and without a status text. *)
Definition mute_failure_server : string → FetchInit → Exchange :=
  Reference.answers 500 EmptyString ∅ EmptyString.


(** [page_body] at the type the client asserts. *)
Definition page_envelope : PaginatedBusResponse.t :=
  {| PaginatedBusResponse.content := [the_bus];
     PaginatedBusResponse.pageable := Envelope.pageable_of None;
     PaginatedBusResponse.last := false;
     PaginatedBusResponse.totalElements := 12;
     PaginatedBusResponse.totalPages := 3;
     PaginatedBusResponse.size := 5;
     PaginatedBusResponse.number := 0;
     PaginatedBusResponse.sort := Envelope.sort_of None;
     PaginatedBusResponse.first := true;
     PaginatedBusResponse.numberOfElements := 1;
     PaginatedBusResponse.empty := false |}.

Definition a_date (s : string) : string := s.

End Scenes.

(* ===================================================================== *)
(** * The pagination window *)
(* ===================================================================== *)

Section Loops.

(** Both loops run to their exit test: with the budget [for_lt] and
    [for_le] give them, they push every index of the range, in order. *)
Lemma for_lt_steps_spec (steps : nat) (i hi : Z) (pages : list Z) :
  Z.to_nat (hi - i) = steps →
  Pagination.for_lt_steps steps i hi pages =
  pages ++ ((λ k, i + Z.of_nat k) <$> seq 0 steps).
Proof.
  revert i pages. induction steps as [|steps IH]; intros i pages Hsteps; simpl.
  - by rewrite app_nil_r.
  - destruct (Z.ltb_spec i hi) as [Hlt|Hge]; [|lia].
    rewrite IH; [|lia]. unfold Pagination.push.
    rewrite <- app_assoc. simpl. f_equal. f_equal; [f_equal; lia|].
    rewrite <- fmap_S_seq, <- list_fmap_compose.
    apply list_fmap_ext. intros _ k _. simpl. lia.
Qed.

Lemma for_lt_spec (lo hi : Z) (pages : list Z) :
  Pagination.for_lt lo hi pages =
  pages ++ ((λ k, lo + Z.of_nat k) <$> seq 0 (Z.to_nat (hi - lo))).
Proof. unfold Pagination.for_lt. by apply for_lt_steps_spec. Qed.

Lemma for_le_steps_spec (steps : nat) (i hi : Z) (pages : list Z) :
  Z.to_nat (hi + 1 - i) = steps →
  Pagination.for_le_steps steps i hi pages =
  pages ++ ((λ k, i + Z.of_nat k) <$> seq 0 steps).
Proof.
  revert i pages. induction steps as [|steps IH]; intros i pages Hsteps; simpl.
  - by rewrite app_nil_r.
  - destruct (Z.leb_spec i hi) as [Hle|Hgt]; [|lia].
    rewrite IH; [|lia]. unfold Pagination.push.
    rewrite <- app_assoc. simpl. f_equal. f_equal; [f_equal; lia|].
    rewrite <- fmap_S_seq, <- list_fmap_compose.
    apply list_fmap_ext. intros _ k _. simpl. lia.
Qed.

Lemma for_le_spec (lo hi : Z) (pages : list Z) :
  Pagination.for_le lo hi pages =
  pages ++ ((λ k, lo + Z.of_nat k) <$> seq 0 (Z.to_nat (hi + 1 - lo))).
Proof. unfold Pagination.for_le. by apply for_le_steps_spec. Qed.

End Loops.

(** The three regimes of a long page list, one equation each. *)
Lemma window_near_start (currentPage totalPages : Z) :
  7 < totalPages → currentPage ≤ 2 →
  Pagination.getVisiblePages currentPage totalPages =
  [0; 1; 2; 3; 4; -1; totalPages - 1].
Proof.
  intros Htotal Hcur. unfold Pagination.getVisiblePages.
  destruct (Z.leb_spec totalPages 7); [lia|].
  destruct (Z.leb_spec currentPage 2); [|lia].
  reflexivity.
Qed.

Lemma window_near_end (currentPage totalPages : Z) :
  7 < totalPages → totalPages - 3 ≤ currentPage →
  Pagination.getVisiblePages currentPage totalPages =
  [0; -1; totalPages - 5; totalPages - 4; totalPages - 3; totalPages - 2;
   totalPages - 1].
Proof.
  intros Htotal Hcur. unfold Pagination.getVisiblePages.
  destruct (Z.leb_spec totalPages 7); [lia|].
  destruct (Z.leb_spec currentPage 2); [lia|].
  destruct (Z.geb_spec currentPage (totalPages - 3)); [|lia].
  rewrite for_lt_spec.
  replace (totalPages - (totalPages - 5)) with 5 by lia.
  unfold Pagination.push. simpl. repeat (f_equal; try lia).
Qed.

Lemma window_middle (currentPage totalPages : Z) :
  7 < totalPages → 2 < currentPage < totalPages - 3 →
  Pagination.getVisiblePages currentPage totalPages =
  [0; -1; currentPage - 1; currentPage; currentPage + 1; -2; totalPages - 1].
Proof.
  intros Htotal Hcur. unfold Pagination.getVisiblePages.
  destruct (Z.leb_spec totalPages 7); [lia|].
  destruct (Z.leb_spec currentPage 2); [lia|].
  destruct (Z.geb_spec currentPage (totalPages - 3)); [lia|].
  rewrite for_le_spec.
  replace (currentPage + 1 + 1 - (currentPage - 1)) with 3 by lia.
  unfold Pagination.push. simpl. repeat (f_equal; try lia).
Qed.

(** For at most one page the component renders nothing, so the window is
    only ever computed for two pages or more. *)
Lemma Pagination_renders (props : Pagination.Props) :
  is_Some (Pagination.Pagination props) ↔ 1 < Pagination.totalPages props.
Proof.
  unfold Pagination.Pagination.
  destruct (Z.leb_spec (Pagination.totalPages props) 1); split;
    intros H'; try lia; try (by eexists); by destruct H'.
Qed.

Section Window.

Import Pagination.

Lemma page_index_not_ellipsis (page : Z) : 0 ≤ page → is_ellipsis page = false.
Proof.
  intros Hpage. unfold is_ellipsis.
  destruct (Z.eqb_spec page (-1)); [lia|].
  destruct (Z.eqb_spec page (-2)); [lia|]. reflexivity.
Qed.

Lemma elem_of_numeric (page : Z) (window : list Z) :
  0 ≤ page → page ∈ window → page ∈ numeric window.
Proof.
  intros Hpage Hin. unfold numeric. apply list_elem_of_filter.
  split; [by apply page_index_not_ellipsis | done].
Qed.

Lemma render_index (currentPage : Z) (loading : bool) (index : nat) (page : Z) :
  0 ≤ page →
  render_page currentPage loading index page =
  PageButton (KeyPage page) page loading (page =? currentPage) (page + 1).
Proof.
  intros Hpage. unfold render_page.
  by rewrite page_index_not_ellipsis.
Qed.

Lemma render_marker (currentPage : Z) (loading : bool) (index : nat) (page : Z) :
  is_ellipsis page = true →
  render_page currentPage loading index page = Ellipsis (KeyEllipsis index).
Proof. intros Hpage. unfold render_page. by rewrite Hpage. Qed.

(** C1. In the middle regime of a list of more than seven pages the
    window is: first index, ellipsis, the three indices around the
    current page, a second ellipsis, last index.  The two markers are
    different values and are rendered under different keys.  For ten
    pages and current page 5 this is [0, …, 4, 5, 6, …, 9]. *)
Theorem C1_middle_window (currentPage totalPages : Z) (loading : bool) :
  7 < totalPages → 2 < currentPage < totalPages - 3 →
  let window := getVisiblePages currentPage totalPages in
  window =
    [0; -1; currentPage - 1; currentPage; currentPage + 1; -2; totalPages - 1]
  ∧ (∃ first second : Z,
        window !! 1%nat = Some first ∧ window !! 5%nat = Some second
        ∧ is_ellipsis first = true ∧ is_ellipsis second = true
        ∧ first ≠ second)
  ∧ numeric window =
      [0; currentPage - 1; currentPage; currentPage + 1; totalPages - 1]
  ∧ imap (render_page currentPage loading) window =
      [PageButton (KeyPage 0) 0 loading false 1;
       Ellipsis (KeyEllipsis 1);
       PageButton (KeyPage (currentPage - 1)) (currentPage - 1) loading false
                  currentPage;
       PageButton (KeyPage currentPage) currentPage loading true
                  (currentPage + 1);
       PageButton (KeyPage (currentPage + 1)) (currentPage + 1) loading false
                  (currentPage + 2);
       Ellipsis (KeyEllipsis 5);
       PageButton (KeyPage (totalPages - 1)) (totalPages - 1) loading false
                  totalPages]
  ∧ NoDup (item_key <$> imap (render_page currentPage loading) window)
  ∧ getVisiblePages 5 10 = [0; -1; 4; 5; 6; -2; 9].
Proof.
  intros Htotal Hcur window. subst window.
  rewrite window_middle by done.
  assert (Hplain : ∀ page, 0 ≤ page → is_ellipsis page = false)
    by apply page_index_not_ellipsis.
  assert (Hrender :
    imap (render_page currentPage loading)
      [0; -1; currentPage - 1; currentPage; currentPage + 1; -2; totalPages - 1] =
    [PageButton (KeyPage 0) 0 loading false 1;
     Ellipsis (KeyEllipsis 1);
     PageButton (KeyPage (currentPage - 1)) (currentPage - 1) loading false
                currentPage;
     PageButton (KeyPage currentPage) currentPage loading true
                (currentPage + 1);
     PageButton (KeyPage (currentPage + 1)) (currentPage + 1) loading false
                (currentPage + 2);
     Ellipsis (KeyEllipsis 5);
     PageButton (KeyPage (totalPages - 1)) (totalPages - 1) loading false
                totalPages]).
  { cbn [imap]. unfold compose.
    rewrite (render_index _ _ _ 0), (render_index _ _ _ (currentPage - 1)),
      (render_index _ _ _ currentPage), (render_index _ _ _ (currentPage + 1)),
      (render_index _ _ _ (totalPages - 1)) by lia.
    rewrite (render_marker _ _ _ (-1)), (render_marker _ _ _ (-2)) by done.
    rewrite Z.eqb_refl.
    rewrite (proj2 (Z.eqb_neq 0 currentPage)),
      (proj2 (Z.eqb_neq (currentPage - 1) currentPage)),
      (proj2 (Z.eqb_neq (currentPage + 1) currentPage)),
      (proj2 (Z.eqb_neq (totalPages - 1) currentPage)) by lia.
    repeat (f_equal; try lia). }
  split; [reflexivity|]. split.
  { exists (-1), (-2). repeat split; try reflexivity. lia. }
  split.
  { unfold numeric.
    rewrite filter_cons_True by (apply Hplain; lia).
    rewrite filter_cons_False by done.
    rewrite !filter_cons_True by (apply Hplain; lia).
    rewrite filter_cons_False by done.
    rewrite filter_cons_True by (apply Hplain; lia).
    reflexivity. }
  split; [exact Hrender|]. split; [|reflexivity].
  rewrite Hrender. cbn [fmap list_fmap item_key].
  repeat (apply NoDup_cons; split;
          [rewrite ?elem_of_cons, elem_of_nil; intros Hin;
           repeat (destruct Hin as [Hin|Hin]; [inversion Hin; lia|]); done|]).
  apply NoDup_nil_2.
Qed.

(** C3. Near the start of a list of more than seven pages the window is
    the five indices 0 to 4, one ellipsis, and the last index.  For ten
    pages and current page 0 this is [0, 1, 2, 3, 4, …, 9]. *)
Theorem C3_near_start_window (currentPage totalPages : Z) :
  7 < totalPages → currentPage ≤ 2 →
  let window := getVisiblePages currentPage totalPages in
  window = [0; 1; 2; 3; 4; -1; totalPages - 1]
  ∧ (∃ marker : Z, window !! 5%nat = Some marker ∧ is_ellipsis marker = true)
  ∧ numeric window = [0; 1; 2; 3; 4; totalPages - 1]
  ∧ getVisiblePages 0 10 = [0; 1; 2; 3; 4; -1; 9].
Proof.
  intros Htotal Hcur window. subst window.
  rewrite window_near_start by done.
  split; [reflexivity|]. split; [by exists (-1)|]. split; [|reflexivity].
  unfold numeric.
  rewrite !filter_cons_True by (apply page_index_not_ellipsis; lia).
  rewrite filter_cons_False by done.
  rewrite filter_cons_True by (apply page_index_not_ellipsis; lia).
  reflexivity.
Qed.

(** C4. Near the end of a list of more than seven pages the window is
    the first index, one ellipsis, and the last five indices.  For ten
    pages and current page 9 this is [0, …, 5, 6, 7, 8, 9]. *)
Theorem C4_near_end_window (currentPage totalPages : Z) :
  7 < totalPages → totalPages - 3 ≤ currentPage →
  let window := getVisiblePages currentPage totalPages in
  window =
    [0; -1; totalPages - 5; totalPages - 4; totalPages - 3; totalPages - 2;
     totalPages - 1]
  ∧ (∃ marker : Z, window !! 1%nat = Some marker ∧ is_ellipsis marker = true)
  ∧ numeric window =
      [0; totalPages - 5; totalPages - 4; totalPages - 3; totalPages - 2;
       totalPages - 1]
  ∧ getVisiblePages 9 10 = [0; -1; 5; 6; 7; 8; 9].
Proof.
  intros Htotal Hcur window. subst window.
  rewrite window_near_end by done.
  split; [reflexivity|]. split; [by exists (-1)|]. split; [|reflexivity].
  unfold numeric.
  rewrite filter_cons_True by (apply page_index_not_ellipsis; lia).
  rewrite filter_cons_False by done.
  rewrite !filter_cons_True by (apply page_index_not_ellipsis; lia).
  reflexivity.
Qed.

(** C5. For at most seven pages the window has exactly [totalPages]
    entries: entry [i] is the page index [i], so the entries are the
    indices 0 to [totalPages - 1] in ascending order and none of them is
    an ellipsis marker.  (A count that is not positive leaves the window
    empty; the component renders nothing for it.) *)
Theorem C5_short_window (currentPage totalPages : Z) :
  totalPages ≤ 7 →
  let window := getVisiblePages currentPage totalPages in
  List.length window = Z.to_nat totalPages
  ∧ (0 ≤ totalPages → Z.of_nat (List.length window) = totalPages)
  ∧ (∀ i : nat, (i < Z.to_nat totalPages)%nat → window !! i = Some (Z.of_nat i))
  ∧ (∀ page : Z, page ∈ window ↔ 0 ≤ page < totalPages)
  ∧ (∀ (i j : nat) (p q : Z),
        window !! i = Some p → window !! j = Some q → (i < j)%nat → p < q)
  ∧ Forall (λ page, is_ellipsis page = false) window.
Proof.
  intros Htotal window. subst window. unfold getVisiblePages.
  destruct (Z.leb_spec totalPages 7) as [_|]; [|lia].
  unfold Array_from_length.
  assert (Hlookup : ∀ (i : nat) (p : Z),
             (Z.of_nat <$> seq 0 (Z.to_nat totalPages)) !! i = Some p →
             p = Z.of_nat i ∧ (i < Z.to_nat totalPages)%nat).
  { intros i p Hi. rewrite list_lookup_fmap in Hi.
    destruct (seq 0 (Z.to_nat totalPages) !! i) as [k|] eqn:Hk; [|done].
    apply lookup_seq in Hk as [-> Hlt]. by inversion Hi. }
  split; [|split; [|split; [|split; [|split]]]].
  - by rewrite length_fmap, length_seq.
  - intros Hpos. rewrite length_fmap, length_seq. lia.
  - intros i Hi. rewrite list_lookup_fmap, lookup_seq_lt by done. reflexivity.
  - intros page. split.
    + intros Hin. apply list_elem_of_lookup in Hin as [i Hi].
      apply Hlookup in Hi. lia.
    + intros [Hlo Hhi]. apply list_elem_of_lookup. exists (Z.to_nat page).
      rewrite list_lookup_fmap, lookup_seq_lt by lia. simpl. f_equal. lia.
  - intros i j p q Hi Hj Hij.
    apply Hlookup in Hi as [-> _]. apply Hlookup in Hj as [-> _]. lia.
  - apply Forall_forall. intros page Hin.
    apply list_elem_of_lookup in Hin as [i Hi]. apply Hlookup in Hi as [-> _].
    apply page_index_not_ellipsis. lia.
Qed.

(** C10. For more than seven pages and a current page inside the list,
    the window has exactly seven entries, and the first index, the
    current page and the last index are among its numeric entries. *)
Theorem C10_window_shape (currentPage totalPages : Z) :
  7 < totalPages → 0 ≤ currentPage < totalPages →
  let window := getVisiblePages currentPage totalPages in
  List.length window = 7%nat
  ∧ 0 ∈ numeric window
  ∧ currentPage ∈ numeric window
  ∧ totalPages - 1 ∈ numeric window.
Proof.
  intros Htotal Hcur window. subst window.
  destruct (Z.le_gt_cases currentPage 2) as [Hstart|Hstart].
  - rewrite window_near_start by done.
    split; [reflexivity|].
    split; [|split]; apply elem_of_numeric; try lia; rewrite !elem_of_cons; lia.
  - destruct (Z.le_gt_cases (totalPages - 3) currentPage) as [Hend|Hend].
    + rewrite window_near_end by done.
      split; [reflexivity|].
      split; [|split]; apply elem_of_numeric; try lia; rewrite !elem_of_cons; lia.
    + rewrite window_middle by lia.
      split; [reflexivity|].
      split; [|split]; apply elem_of_numeric; try lia; rewrite !elem_of_cons; lia.
Qed.

(** C6. Whenever the component renders, the range it shows starts at
    [currentPage * pageSize + 1] and ends at the smaller of
    [(currentPage + 1) * pageSize] and [totalElements], with a page size
    of 5 when none is passed; it renders for every list of two pages or
    more.  For current page 1, page size 5 and 23 elements the range is
    6 to 10. *)
Theorem C6_range_text (props : Props) :
  let pageSize := default 5 (pageSize props) in
  match Pagination props with
  | Some view =>
      start view = currentPage props * pageSize + 1
      ∧ end_ view = Z.min ((currentPage props + 1) * pageSize) (totalElements props)
      ∧ shown_total view = totalElements props
  | None => totalPages props ≤ 1
  end
  ∧ (∀ (pages : Z) (size : option Z) (busy : option bool),
        1 < pages → size = Some 5 ∨ size = None →
        let shown := Pagination {| currentPage := 1; totalPages := pages;
                                   totalElements := 23; pageSize := size;
                                   loading := busy |} in
        start <$> shown = Some 6 ∧ end_ <$> shown = Some 10).
Proof.
  intros size. subst size. split.
  - unfold Pagination.
    destruct (Z.leb_spec (totalPages props) 1); [done|]. by cbn.
  - intros pages size busy Hpages Hsize shown. subst shown. unfold Pagination.
    cbn [currentPage totalPages totalElements pageSize loading].
    destruct (Z.leb_spec pages 1); [lia|].
    by destruct Hsize as [-> | ->].
Qed.

End Window.

(** The claims of the page window at concrete page lists. *)
Lemma C1_middle_window_at_5_of_10 :
  Pagination.getVisiblePages 5 10 = [0; -1; 5 - 1; 5; 5 + 1; -2; 10 - 1].
Proof. apply (C1_middle_window 5 10 false); lia. Defined.

Lemma C3_near_start_window_at_0_of_10 :
  Pagination.getVisiblePages 0 10 = [0; 1; 2; 3; 4; -1; 10 - 1].
Proof. apply (C3_near_start_window 0 10); lia. Defined.

Lemma C4_near_end_window_at_9_of_10 :
  Pagination.getVisiblePages 9 10 =
  [0; -1; 10 - 5; 10 - 4; 10 - 3; 10 - 2; 10 - 1].
Proof. apply (C4_near_end_window 9 10); lia. Defined.

Lemma C5_short_window_at_4 :
  List.length (Pagination.getVisiblePages 2 4) = Z.to_nat 4.
Proof. apply (C5_short_window 2 4); lia. Defined.

Lemma C10_window_shape_at_6_of_12 :
  List.length (Pagination.getVisiblePages 6 12) = 7%nat.
Proof. apply (C10_window_shape 6 12); lia. Defined.


(* ===================================================================== *)
(** * The request pipeline *)
(* ===================================================================== *)

Ltac run_monad :=
  repeat progress
    (cbv beta iota zeta delta
       [Http.timeoutSignal Http.new_AbortController Http.setTimeout
        Http.clearTimeout Http.bind Http.try_finally Http.try_catch Http.fetch
        Http.emit Http.await Http.is_aborted Http.ret Http.throw
        Http.Response_text Http.Response_json Http.parse Http.console_error
        Http.deadline_passes];
     cbn [fst snd Http.next_timer Http.next_ctrl Http.timers Http.aborted
          Http.trace Http.log Http.set_timers Http.set_aborted Http.timing
          Http.outcome]).

Section Tameness.

Import Http Observe.

Lemma continues_refl (w : World) : continues w w.
Proof. exists []. by rewrite app_nil_r. Qed.

Lemma continues_trans (w1 w2 w3 : World) :
  continues w1 w2 → continues w2 w3 → continues w1 w3.
Proof.
  intros [e1 H1] [e2 H2]. exists (e1 ++ e2). by rewrite H2, H1, app_assoc.
Qed.

Lemma continues_log (ev : Event) (w : World) : continues w (log ev w).
Proof. by exists [ev]. Qed.

Lemma arms_nothing_trans (w1 w2 w3 : World) :
  arms_nothing w1 w2 → arms_nothing w2 w3 → arms_nothing w1 w3.
Proof. intros H1 H2 id Hid. by apply H2, H1. Qed.

Lemma tame_ret {A} (Q : A → Prop) (a : A) : Q a → tame Q (ret a).
Proof.
  intros HQ w. cbn. split; [apply continues_refl|]. split; [by intros id|].
  by intros a' [= <-].
Qed.

Lemma tame_throw {A} (Q : A → Prop) (e : ErrorObj) : tame Q (throw e).
Proof.
  intros w. cbn. split; [apply continues_refl|]. split; [by intros id|]. done.
Qed.

Lemma tame_bind {A B} (Q : A → Prop) (R : B → Prop) (m : M A) (k : A → M B) :
  tame Q m → (∀ a, Q a → tame R (k a)) → tame R (bind m k).
Proof.
  intros Hm Hk w. unfold bind. destruct (Hm w) as (Hc & Ha & HQ).
  destruct (m w) as [[a|e] w1]; cbn in *.
  - destruct (Hk a (HQ a eq_refl) w1) as (Hc' & Ha' & HR).
    split; [by eapply continues_trans|]. split; [by eapply arms_nothing_trans|done].
  - done.
Qed.

Lemma tame_try_catch {A} (Q : A → Prop) (m : M A) (handler : ErrorObj → M A) :
  tame Q m → (∀ e, tame Q (handler e)) → tame Q (try_catch m handler).
Proof.
  intros Hm Hh w. unfold try_catch. destruct (Hm w) as (Hc & Ha & HQ).
  destruct (m w) as [[a|e] w1]; cbn in *.
  - done.
  - destruct (Hh e w1) as (Hc' & Ha' & HR).
    split; [by eapply continues_trans|]. split; [by eapply arms_nothing_trans|done].
Qed.

Lemma tame_emit (ev : Event) : tame (λ _, True) (emit ev).
Proof.
  intros w. cbn. split; [apply continues_log|]. split; [by intros id|done].
Qed.

Lemma tame_deadline_passes (ctrl : nat) : tame (λ _, True) (deadline_passes ctrl).
Proof.
  intros w. unfold deadline_passes. case_decide; cbn.
  - split; [apply continues_refl|]. split; [by intros id|done].
  - split; [by exists [EvTimerFired ctrl]|]. split; [|done].
    intros id Hid. by apply map_lookup_filter_None_2; left.
Qed.

Lemma tame_is_aborted (ctrl : nat) : tame (λ _, True) (is_aborted ctrl).
Proof.
  intros w. cbn. split; [apply continues_refl|]. split; [by intros id|done].
Qed.

Section WithPlatform.

Variable env : Platform.

Lemma tame_await {A} (ctrl : nat) (t : Timing) (result : A + ErrorObj) :
  tame (λ _, True) (await env ctrl t result).
Proof.
  unfold await.
  eapply tame_bind with (Q := λ _, True).
  { destruct t; [by apply tame_ret | apply tame_deadline_passes]. }
  intros _ _. eapply tame_bind; [apply tame_is_aborted|].
  intros [] _; [apply tame_throw|].
  destruct result; [by apply tame_ret | apply tame_throw].
Qed.

Lemma tame_fetch (url : string) (init : FetchInit) :
  tame (λ _, True) (fetch env url init).
Proof.
  unfold fetch. eapply tame_bind; [apply tame_emit|]. intros _ _.
  eapply tame_bind; [apply tame_await|]. intros res _. by apply tame_ret.
Qed.

Lemma tame_Response_text (res : Response * nat) :
  tame (λ _, True) (Response_text env res).
Proof.
  unfold Response_text. eapply tame_bind; [apply tame_emit|]. intros _ _.
  apply tame_await.
Qed.

Lemma tame_parse (text : string) : tame (λ _, True) (parse env text).
Proof.
  unfold parse. eapply tame_bind; [apply tame_emit|]. intros _ _.
  destruct (JSON_parse env text); [by apply tame_ret | apply tame_throw].
Qed.

Lemma tame_Response_json (res : Response * nat) :
  tame (λ _, True) (Response_json env res).
Proof.
  unfold Response_json. eapply tame_bind; [apply tame_Response_text|].
  intros text _. apply tame_parse.
Qed.

End WithPlatform.

End Tameness.

Section Pipeline.

Import Http Observe.

Variable env : Platform.

Lemma bind_normal {A B} (m : M A) (k : A → M B) (w w1 : World) (a : A) :
  m w = (Normal a, w1) → bind m k w = k a w1.
Proof. intros Hm. unfold bind. by rewrite Hm. Qed.

Lemma fresh_signal_not_aborted (ctrl : nat) (a : gset nat) :
  bool_decide (ctrl ∈ a ∖ {[ctrl]}) = false.
Proof.
  apply bool_decide_eq_false_2. rewrite elem_of_difference, elem_of_singleton.
  by intros [_ Hne].
Qed.

(** [timeoutSignal] arms one timer, under the next free handle, that
    aborts the controller it has just made. *)
Lemma timeoutSignal_run (ms : Z) (w : World) :
  timeoutSignal ms w =
  (Normal (next_ctrl w, next_timer w),
   {| next_timer := S (next_timer w); next_ctrl := S (next_ctrl w);
      timers := <[next_timer w := ctrl_abort (next_ctrl w)]> (timers w);
      aborted := aborted w ∖ {[next_ctrl w]};
      trace := trace w ++ [EvSetTimeout (next_timer w) ms] |}).
Proof. reflexivity. Qed.

(** The [finally] block of [request] cannot throw: whatever the [try]
    block did, the timer is disarmed and the completion stands. *)
Lemma try_finally_clearTimeout {A} (m : M A) (timer : nat) (w : World) :
  try_finally m (clearTimeout timer) w =
  ((m w).1, log (EvClearTimeout timer) (set_timers (delete timer) (m w).2)).
Proof. unfold try_finally, clearTimeout. by destruct (m w). Qed.

(** The [try]/[catch] part of [request] only talks to the network and the
    console, and so does the promise it may return. *)
Lemma tame_try_block (endpoint : string) (options : Options) (signal : nat) :
  tame tame_returned
    (try_catch
       (let* res := fetch env (buildURL env endpoint)
                      (fetch_init env options signal) in
        if negb (res_ok res.1) then
          let errorData := JNull in
          let* text := Response_text env res in
          let* errorData :=
            try_catch
              (if truthy text then parse env text else ret JNull)
              (λ _, ret (JString text)) in
          throw (Object_assign
                   (new_Error (if truthy text then text
                               else res_statusText res.1))
                   (res_status res.1) errorData)
        else if res_status res.1 =? 204 then ret (Value JUndefined)
        else
          let contentType := headers_get res "content-type" in
          if from_option (λ ct, includes ct "application/json") false contentType
          then ret (Promise (Response_json env res))
          else ret (Promise (let* text := Response_text env res in
                             ret (JString text))))
       (λ error, let* _ := console_error error in throw error)).
Proof.
  apply tame_try_catch.
  - eapply tame_bind; [apply tame_fetch|]. intros res _.
    destruct (negb (res_ok res.1)).
    + eapply tame_bind; [apply tame_Response_text|]. intros text _.
      eapply tame_bind with (Q := λ _, True); [|intros; apply tame_throw].
      apply tame_try_catch; [|by intros; apply tame_ret].
      destruct (truthy text); [apply tame_parse | by apply tame_ret].
    + destruct (res_status res.1 =? 204); [by apply tame_ret|].
      cbv zeta.
      destruct (from_option (λ ct, includes ct "application/json") false
                  (headers_get res "content-type")); apply tame_ret; cbn.
      * apply tame_Response_json.
      * eapply tame_bind; [apply tame_Response_text|].
        by intros; apply tame_ret.
  - intros error. eapply tame_bind; [apply tame_emit|].
    intros; apply tame_throw.
Qed.

(** C8. Whatever the network does and however the call completes, the
    timer armed at the start of [request] is cleared: [clearTimeout] runs
    for its handle after it was set, and the timer is not armed in the
    world the call leaves behind. *)
Theorem C8_timer_always_cleared (endpoint : string) (options : Options) (w : World) :
  let timer := next_timer w in
  let w' := (request env endpoint options w).2 in
  timers w' !! timer = None
  ∧ ∃ events, trace w' = trace w ++ EvSetTimeout timer TIMEOUT :: events
              ∧ EvClearTimeout timer ∈ events.
Proof.
  intros timer w'. subst timer w'. unfold request.
  rewrite (bind_normal _ _ _ _ _ (timeoutSignal_run TIMEOUT w)).
  cbv beta iota.
  pose proof (tame_try_block endpoint options (next_ctrl w)) as Hblock.
  match goal with |- context [try_finally ?blk _] =>
    set (block := blk) in *
  end.
  clearbody block. unfold bind. rewrite try_finally_clearTimeout.
  match goal with |- context [block ?w1] =>
    destruct (Hblock w1) as ([events Hevents] & _ & Hreturned);
    destruct (block w1) as [[returned|e] w2]
  end; cbn [fst snd trace] in *.
  - specialize (Hreturned returned eq_refl).
    destruct returned as [v|p]; cbn.
    + split; [apply lookup_delete_eq|].
      exists (events ++ [EvClearTimeout (next_timer w)]).
      rewrite Hevents, <- !app_assoc. split; [done|].
      apply elem_of_app; right. by left.
    + destruct (Hreturned
                  (log (EvClearTimeout (next_timer w))
                     (set_timers (delete (next_timer w)) w2)))
        as ([late Hlate] & Harms & _).
      split; [apply Harms; cbn; apply lookup_delete_eq|].
      exists (events ++ EvClearTimeout (next_timer w) :: late).
      rewrite Hlate; cbn. rewrite Hevents, <- !app_assoc.
      split; [done|]. apply elem_of_app; right. by left.
  - cbn. split; [apply lookup_delete_eq|].
    exists (events ++ [EvClearTimeout (next_timer w)]).
    rewrite Hevents, <- !app_assoc. split; [done|].
    apply elem_of_app; right. by left.
Qed.

(** A call that gets no answer before its deadline: the timer fires and
    aborts the fetch, the call fails with the abort reason, and no timer
    is left armed. *)
Lemma request_times_out :
  let done := request (Reference.browser Reference.silent)
                "/api/v1/buses" no_options Reference.idle in
  done.1 = Throw Reference.abort_error
  ∧ timers done.2 = ∅
  ∧ trace done.2 =
      [EvSetTimeout 0 TIMEOUT;
       EvFetch "http://localhost:8080/api/v1/buses"
         (fetch_init (Reference.browser Reference.silent) no_options 0);
       EvTimerFired 0;
       EvConsoleError Reference.abort_error;
       EvClearTimeout 0].
Proof. by vm_compute. Qed.

(** An error body that is not JSON is kept as it came. *)
Lemma request_keeps_raw_text :
  (request (Reference.browser Reference.gateway_server)
     "/api/v1/buses" no_options Reference.idle).1 =
  Throw {| err_name := "Error";
           err_message := "<html>Bad Gateway</html>";
           err_status := Some 502;
           err_data := Some (JString "<html>Bad Gateway</html>") |}.
Proof. reflexivity. Qed.

(** C7. A response with status 204 that arrives in time makes [request]
    resolve to [undefined]; the call sets its timer, fetches and clears the
    timer, and neither reads nor parses the body. *)
Theorem C7_no_content (endpoint : string) (options : Options) (w : World)
        (res : Response) :
  network env (buildURL env endpoint) (fetch_init env options (next_ctrl w)) =
    {| timing := InTime; outcome := inl res |} →
  res_status res = 204 →
  let done := request env endpoint options w in
  done.1 = Normal JUndefined
  ∧ ∃ events,
      trace done.2 = trace w ++ events
      ∧ events =
          [EvSetTimeout (next_timer w) TIMEOUT;
           EvFetch (buildURL env endpoint) (fetch_init env options (next_ctrl w));
           EvClearTimeout (next_timer w)]
      ∧ Forall (λ ev, ¬ touches_body ev) events.
Proof.
  intros Hnet Hstatus done. subst done.
  unfold request. run_monad. rewrite Hnet. run_monad.
  change (init_signal (fetch_init env options (next_ctrl w))) with (next_ctrl w).
  rewrite fresh_signal_not_aborted. run_monad.
  unfold res_ok. rewrite Hstatus.
  change (negb ((200 <=? 204) && (204 <=? 299))) with false.
  change (204 =? 204) with true. run_monad.
  split; [reflexivity|]. eexists. split; [|split]; [|reflexivity|].
  - by rewrite <- !app_assoc.
  - repeat constructor; by intros [].
Qed.

(** C2 (amended). A response with a non-success status whose body
    arrives in time makes [request] read the body as text and fail with an
    error that carries: as message the raw text, or the status text when
    the body is empty; as status the HTTP status code; as data [null] when
    the body is empty, and otherwise the parsed body when [JSON.parse]
    succeeds and the raw text when it throws.  The body is parsed only when
    it is not empty.  In particular a 404 whose body parses carries status
    404 and the parsed value. *)
Theorem C2_error_response (endpoint : string) (options : Options) (w : World)
        (res : Response) (text : string) :
  network env (buildURL env endpoint) (fetch_init env options (next_ctrl w)) =
    {| timing := InTime; outcome := inl res |} →
  res_ok res = false →
  res_body_timing res = InTime →
  res_body res = inl text →
  let done := request env endpoint options w in
  let error :=
    {| err_name := "Error";
       err_message := if truthy text then text else res_statusText res;
       err_status := Some (res_status res);
       err_data := Some (payload_built env text) |} in
  done.1 = Throw error
  ∧ trace done.2 =
      trace w
      ++ [EvSetTimeout (next_timer w) TIMEOUT;
          EvFetch (buildURL env endpoint) (fetch_init env options (next_ctrl w));
          EvReadBody]
      ++ (if truthy text then [EvJSONParse text] else [])
      ++ [EvConsoleError error; EvClearTimeout (next_timer w)]
  ∧ (truthy text = true → payload_built env text = payload_as_specified env text)
  ∧ (truthy text = false → payload_built env text = JNull)
  ∧ (∀ parsed, res_status res = 404 → truthy text = true →
               JSON_parse env text = inl parsed →
               err_status error = Some 404 ∧ err_data error = Some parsed).
Proof.
  intros Hnet Hok Htiming Hbody done error. subst done error.
  assert (Hpayload : ∀ parsed, truthy text = true →
                               JSON_parse env text = inl parsed →
                               payload_built env text = parsed).
  { intros parsed Htext Hparsed.
    unfold payload_built, payload_as_specified. by rewrite Htext, Hparsed. }
  split; [|split; [|split; [|split]]].
  - unfold request. run_monad. rewrite Hnet. run_monad.
    change (init_signal (fetch_init env options (next_ctrl w)))
      with (next_ctrl w).
    rewrite fresh_signal_not_aborted. run_monad.
    rewrite Hok. cbn [negb]. run_monad. rewrite Htiming, Hbody. run_monad.
    rewrite fresh_signal_not_aborted. run_monad.
    unfold payload_built, payload_as_specified.
    destruct (truthy text); run_monad; [|reflexivity].
    destruct (JSON_parse env text); run_monad; reflexivity.
  - unfold request. run_monad. rewrite Hnet. run_monad.
    change (init_signal (fetch_init env options (next_ctrl w)))
      with (next_ctrl w).
    rewrite fresh_signal_not_aborted. run_monad.
    rewrite Hok. cbn [negb]. run_monad. rewrite Htiming, Hbody. run_monad.
    rewrite fresh_signal_not_aborted. run_monad.
    unfold payload_built, payload_as_specified.
    destruct (truthy text); run_monad.
    + destruct (JSON_parse env text); run_monad; by rewrite <- !app_assoc.
    + by rewrite <- !app_assoc.
  - intros Htext. unfold payload_built. by rewrite Htext.
  - intros Htext. unfold payload_built. by rewrite Htext.
  - intros parsed Hstatus Htext Hparsed. cbn [err_status err_data].
    by rewrite Hstatus, (Hpayload parsed).
Qed.

End Pipeline.

(** C2 at the 404 of the specification: status 404, body
    [{"error":"not found"}], payload the parsed object. *)
Lemma C2_error_response_at_404 :
  (Http.request (Reference.browser Reference.not_found_server)
     "/api/v1/buses/7" Http.no_options Reference.idle).1 =
  Http.Throw
    {| Http.err_name := "Error";
       Http.err_message := Reference.not_found_body;
       Http.err_status := Some 404;
       Http.err_data :=
         Some (Http.JObject [("error", Http.JString "not found")]) |}.
Proof.
  apply (C2_error_response (Reference.browser Reference.not_found_server)
           "/api/v1/buses/7" Http.no_options Reference.idle
           {| Http.res_status := 404; Http.res_statusText := "Not Found";
              Http.res_headers := Reference.json_headers;
              Http.res_body_timing := Http.InTime;
              Http.res_body := inl Reference.not_found_body |}
           Reference.not_found_body);
    reflexivity.
Defined.

(** The claim as worded fails on an error response without a body: the
    empty text is not valid JSON, so the worded payload is the raw (empty)
    text, while [request] attaches [null]. *)
Lemma C2_empty_body_payload_is_null :
  (Http.request (Reference.browser Reference.failing_server)
     "/api/v1/buses" Http.no_options Reference.idle).1 =
  Http.Throw
    {| Http.err_name := "Error";
       Http.err_message := "Internal Server Error";
       Http.err_status := Some 500;
       Http.err_data := Some Http.JNull |}
  ∧ Http.JSON_parse (Reference.browser Reference.failing_server) EmptyString =
    inr Reference.syntax_error
  ∧ Observe.payload_as_specified (Reference.browser Reference.failing_server)
      EmptyString = Http.JString EmptyString
  ∧ Http.JNull ≠
    Observe.payload_as_specified (Reference.browser Reference.failing_server)
      EmptyString.
Proof. repeat split; try reflexivity. discriminate. Qed.

(** C7 at a 204 without a body. *)
Lemma C7_no_content_at_204 :
  (Http.request (Reference.browser Reference.no_content_server)
     "/api/v1/buses/7" Http.no_options Reference.idle).1 =
  Http.Normal Http.JUndefined.
Proof.
  apply (C7_no_content (Reference.browser Reference.no_content_server)
           "/api/v1/buses/7" Http.no_options Reference.idle
           {| Http.res_status := 204; Http.res_statusText := "No Content";
              Http.res_headers := ∅;
              Http.res_body_timing := Http.InTime;
              Http.res_body := inl EmptyString |});
    reflexivity.
Defined.

(* ===================================================================== *)
(** * Page metadata *)
(* ===================================================================== *)

Section Metadata.

Import Http.

(** C9 (amended). The client copies the six metadata members of the page
    envelope into its result unchanged and checks none of them, so the
    result satisfies the page invariants exactly when the envelope sent by
    the server does; every result of [getPaginated] is such a copy. *)
Theorem C9_metadata_is_copied (env : Platform)
        (as_page : JSValue → PaginatedBusResponse.t + ErrorObj)
        (page size : Z) (w : World) :
  (∀ response : PaginatedBusResponse.t,
      let result := BusAssembler.toPaginatedResult response in
      PaginatedBusResult.currentPage result = PaginatedBusResponse.number response
      ∧ PaginatedBusResult.totalPages result =
        PaginatedBusResponse.totalPages response
      ∧ PaginatedBusResult.totalElements result =
        PaginatedBusResponse.totalElements response
      ∧ PaginatedBusResult.pageSize result = PaginatedBusResponse.size response
      ∧ PaginatedBusResult.isFirst result = PaginatedBusResponse.first response
      ∧ PaginatedBusResult.isLast result = PaginatedBusResponse.last response
      ∧ (page_invariants result ↔ envelope_invariants response))
  ∧ (∀ result : PaginatedBusResult.t,
        (BusService.getPaginated env as_page page size w).1 = Normal result →
        ∃ (value : JSValue) (response : PaginatedBusResponse.t),
          (BusService.getPaginatedBuses env page size w).1 = Normal value
          ∧ as_page value = inl response
          ∧ result = BusAssembler.toPaginatedResult response
          ∧ (page_invariants result ↔ envelope_invariants response)).
Proof.
  split.
  - intros response result. subst result.
    repeat (split; [reflexivity|]). exact (iff_refl _).
  - intros result. unfold BusService.getPaginated, try_catch, bind.
    destruct (BusService.getPaginatedBuses env page size w) as [[value|e] w1];
      [|discriminate].
    destruct (as_page value) as [response|e] eqn:Hvalue; [|discriminate].
    cbn. intros [= <-]. exists value, response.
    split; [reflexivity|]. split; [exact Hvalue|]. split; [reflexivity|].
    exact (iff_refl _).
Qed.

End Metadata.

(** The claim as worded fails when the server sends an envelope that
    breaks the invariants: five elements, page 3 of 0.  The result repeats
    it. *)
Lemma C9_stray_envelope_is_repeated :
  (BusService.getPaginated (Reference.browser Reference.stray_page_server)
     Reference.as_PaginatedBusResponse 3 5 Reference.idle).1 =
  Http.Normal
    {| PaginatedBusResult.buses := [];
       PaginatedBusResult.totalElements := 5;
       PaginatedBusResult.totalPages := 0;
       PaginatedBusResult.currentPage := 3;
       PaginatedBusResult.pageSize := 5;
       PaginatedBusResult.isFirst := false;
       PaginatedBusResult.isLast := false |}
  ∧ ¬ page_invariants
        {| PaginatedBusResult.buses := [];
           PaginatedBusResult.totalElements := 5;
           PaginatedBusResult.totalPages := 0;
           PaginatedBusResult.currentPage := 3;
           PaginatedBusResult.pageSize := 5;
           PaginatedBusResult.isFirst := false;
           PaginatedBusResult.isLast := false |}.
Proof.
  split; [reflexivity|].
  intros (Hrange & _). cbn in Hrange. lia.
Qed.

(* ===================================================================== *)
(** * More on the pagination component *)
(* ===================================================================== *)

Section WindowEverywhere.

Import Pagination Shown.

Lemma window_short (currentPage totalPages : Z) :
  totalPages ≤ 7 →
  getVisiblePages currentPage totalPages = Z.of_nat <$> seq 0 (Z.to_nat totalPages).
Proof.
  intros Htotal. unfold getVisiblePages.
  by destruct (Z.leb_spec totalPages 7); [|lia].
Qed.

(** A long list falls in exactly one of the three regimes. *)
Lemma window_long (currentPage totalPages : Z) :
  7 < totalPages →
  (currentPage ≤ 2
   ∧ getVisiblePages currentPage totalPages = [0; 1; 2; 3; 4; -1; totalPages - 1])
  ∨ (totalPages - 3 ≤ currentPage
     ∧ getVisiblePages currentPage totalPages =
       [0; -1; totalPages - 5; totalPages - 4; totalPages - 3; totalPages - 2;
        totalPages - 1])
  ∨ (2 < currentPage < totalPages - 3
     ∧ getVisiblePages currentPage totalPages =
       [0; -1; currentPage - 1; currentPage; currentPage + 1; -2; totalPages - 1]).
Proof.
  intros Htotal.
  destruct (Z.le_gt_cases currentPage 2) as [Hstart|Hstart].
  { left. split; [done|]. by apply window_near_start. }
  destruct (Z.le_gt_cases (totalPages - 3) currentPage) as [Hend|Hend].
  { right; left. split; [done|]. by apply window_near_end. }
  right; right. split; [lia|]. apply window_middle; lia.
Qed.



(** X2. The window never has more than seven entries: it has
    [min totalPages 7] of them (none for a count that is not positive),
    whatever the current page. *)
Theorem window_length (currentPage totalPages : Z) :
  List.length (getVisiblePages currentPage totalPages) =
  Z.to_nat (Z.min totalPages 7).
Proof.
  destruct (Z.le_gt_cases totalPages 7) as [Hshort|Hlong].
  - rewrite window_short by done. rewrite length_fmap, length_seq. f_equal. lia.
  - replace (Z.min totalPages 7) with 7 by lia.
    by destruct (window_long currentPage totalPages Hlong)
      as [[_ ->]|[[_ ->]|[_ ->]]].
Qed.

Lemma numeric_cons (page : Z) (window : list Z) :
  numeric (page :: window) =
  if is_ellipsis page then numeric window else page :: numeric window.
Proof.
  unfold numeric. rewrite filter_cons.
  destruct (is_ellipsis page); by case_decide.
Qed.

Lemma item_key_render (currentPage : Z) (loading : bool) (index : nat) (page : Z) :
  item_key (render_page currentPage loading index page) =
  if is_ellipsis page then KeyEllipsis index else KeyPage page.
Proof. unfold render_page. by destruct (is_ellipsis page). Qed.

(** The keys of a rendered list are distinct as soon as its page indices
    are; a marker is keyed by its position. *)
Lemma keys_NoDup (currentPage : Z) (loading : bool) (window : list Z) :
  ∀ offset : nat,
    NoDup (numeric window) →
    NoDup (item_key <$>
           imap (λ i, render_page currentPage loading (offset + i)) window).
Proof.
  induction window as [|page window IH]; intros offset Hnumeric; [constructor|].
  rewrite numeric_cons in Hnumeric. cbn [imap fmap list_fmap].
  assert (Htail :
    imap ((λ i, render_page currentPage loading (offset + i)) ∘ S) window =
    imap (λ i, render_page currentPage loading (S offset + i)) window).
  { apply imap_ext. intros i q _. cbn. f_equal. lia. }
  rewrite Htail. apply NoDup_cons. split.
  - rewrite item_key_render. intros Hin.
    apply list_elem_of_fmap in Hin as (item & Hkey & Hitem).
    apply elem_of_lookup_imap in Hitem as (i & q & -> & Hq).
    rewrite item_key_render in Hkey.
    destruct (is_ellipsis page) eqn:Hpage, (is_ellipsis q) eqn:Hplain;
      try discriminate Hkey.
    + injection Hkey. lia.
    + injection Hkey as ->. apply NoDup_cons in Hnumeric as [Hfresh _].
      apply Hfresh. unfold numeric. apply list_elem_of_filter.
      split; [done|]. by eapply list_elem_of_lookup_2.
  - apply IH. destruct (is_ellipsis page); [done|].
    by apply NoDup_cons in Hnumeric as [_ ?].
Qed.

Lemma window_NoDup (currentPage totalPages : Z) :
  NoDup (getVisiblePages currentPage totalPages).
Proof.
  destruct (Z.le_gt_cases totalPages 7) as [Hshort|Hlong].
  - rewrite window_short by done.
    apply NoDup_fmap_2; [apply Nat2Z.inj'|apply NoDup_seq].
  - destruct (window_long currentPage totalPages Hlong)
      as [[Hcur ->]|[[Hcur ->]|[Hcur ->]]];
      repeat (apply NoDup_cons; split;
              [rewrite ?elem_of_cons, elem_of_nil; intros Hin;
               repeat (destruct Hin as [Hin|Hin]; [lia|]); done|]);
      apply NoDup_nil_2.
Qed.

(** X3. Whatever the current page and the page count, no entry of the
    window is repeated, and the children of the rendered page list carry
    pairwise different keys. *)
Theorem page_list_keys_unique (currentPage totalPages : Z) (loading : bool) :
  NoDup (getVisiblePages currentPage totalPages)
  ∧ NoDup (item_key <$> page_list currentPage totalPages loading).
Proof.
  split; [apply window_NoDup|].
  unfold page_list. apply (keys_NoDup currentPage loading _ 0%nat).
  unfold numeric. apply NoDup_filter, window_NoDup.
Qed.





(** X5. On a page that holds elements (positive page size, current page
    not negative, [currentPage * pageSize < totalElements]) the range shown
    is sound: 1 ≤ start ≤ end ≤ totalElements, and it counts
    [min pageSize (totalElements - currentPage * pageSize)] elements.  On a
    page past the data the range is inverted: end is below start. *)
Theorem range_text_bounds (props : Props) (view : View) :
  Pagination props = Some view →
  0 < default 5 (pageSize props) →
  0 ≤ currentPage props →
  let size := default 5 (pageSize props) in
  let before := currentPage props * size in
  (before < totalElements props →
   1 ≤ start view ≤ end_ view ∧ end_ view ≤ totalElements props
   ∧ end_ view - start view + 1 = Z.min size (totalElements props - before))
  ∧ (totalElements props ≤ before → end_ view < start view).
Proof.
  unfold Pagination. destruct (Z.leb_spec (totalPages props) 1); [done|].
  intros [= <-] Hsize Hcur. cbn [start end_].
  set (size := default 5 (pageSize props)) in *.
  replace ((currentPage props + 1) * size) with (currentPage props * size + size)
    by lia.
  assert (0 ≤ currentPage props * size) by nia.
  split; intros Hdata; lia.
Qed.

(** X6. With a current page inside the list, a navigation arrow that is
    enabled leads to a page of the list: "previous" is disabled on the
    first page, "next" on the last, both while loading, and otherwise they
    lead to the neighbouring index. *)
Theorem arrows_stay_in_range (props : Props) (view : View) :
  Pagination props = Some view →
  0 ≤ currentPage props < totalPages props →
  (prev_disabled view = false →
   prev_onClick view = currentPage props - 1
   ∧ 0 ≤ prev_onClick view < totalPages props)
  ∧ (next_disabled view = false →
     next_onClick view = currentPage props + 1
     ∧ 0 ≤ next_onClick view < totalPages props)
  ∧ (currentPage props = 0 → prev_disabled view = true)
  ∧ (currentPage props = totalPages props - 1 → next_disabled view = true)
  ∧ (default false (loading props) = true →
     prev_disabled view = true ∧ next_disabled view = true).
Proof.
  unfold Pagination. destruct (Z.leb_spec (totalPages props) 1); [done|].
  intros [= <-] Hcur. cbn [prev_disabled prev_onClick next_disabled next_onClick].
  destruct (Z.eqb_spec (currentPage props) 0),
    (Z.eqb_spec (currentPage props) (totalPages props - 1)),
    (default false (loading props)); cbn; repeat split; try done; lia.
Qed.

End WindowEverywhere.

Lemma range_text_bounds_at_23 :
  ∃ view, Pagination.Pagination Shown.last_page_of_23 = Some view
          ∧ 1 ≤ Pagination.start view ≤ Pagination.end_ view.
Proof.
  eexists. split; [reflexivity|].
  eapply (range_text_bounds Shown.last_page_of_23); cbn;
    first [reflexivity | lia].
Defined.

Lemma arrows_stay_in_range_at_2_of_5 :
  ∃ view, Pagination.Pagination Shown.third_page_of_23 = Some view
          ∧ 0 ≤ Pagination.prev_onClick view < 5.
Proof.
  eexists. split; [reflexivity|].
  eapply (arrows_stay_in_range Shown.third_page_of_23);
    cbn; first [reflexivity | lia].
Defined.


(* ===================================================================== *)
(** * More on the request pipeline *)
(* ===================================================================== *)

Section Paths.

Import Http Observe Parts.

Variable env : Platform.

Lemma request_parts (endpoint : string) (options : Options) :
  request env endpoint options =
  (let* (signal, timer) := timeoutSignal TIMEOUT in
   let* returned := try_finally (attempt env endpoint options signal)
                                (clearTimeout timer) in
   finish returned).
Proof. reflexivity. Qed.

(** Once the timer of a call is cleared, nothing guards its signal. *)
Lemma unguarded_after_clear (w : World) (timer : nat) (cb : Callback) :
  unguarded (next_ctrl w) w →
  filter (guards (next_ctrl w)) (delete timer (<[timer := cb]> (timers w))) = ∅.
Proof.
  intros Hfree. apply map_empty_filter_2. intros id cb' Hid Hguard.
  apply lookup_delete_Some in Hid as [Hne Hid].
  rewrite lookup_insert_ne in Hid by done.
  unfold guards in Hguard; cbn in Hguard. subst cb'. by apply (Hfree id).
Qed.

(** While the timer of a call is armed, it guards the signal. *)
Lemma guarded_while_armed (timer ctrl : nat) (armed : gmap nat Callback) :
  filter (guards ctrl) (<[timer := ctrl_abort ctrl]> armed) ≠ ∅.
Proof.
  intros Hempty.
  assert (Hlook : filter (guards ctrl) (<[timer := ctrl_abort ctrl]> armed)
                    !! timer = Some (ctrl_abort ctrl)).
  { apply map_lookup_filter_Some. split; [apply lookup_insert_eq | done]. }
  by rewrite Hempty, lookup_empty in Hlook.
Qed.

Lemma signal_aborted (ctrl : nat) (a : gset nat) :
  bool_decide (ctrl ∈ {[ctrl]} ∪ a) = true.
Proof. apply bool_decide_eq_true_2, elem_of_union_l, elem_of_singleton_2. done. Qed.

Ltac issue_fetch Hnet :=
  unfold request; run_monad; rewrite Hnet; run_monad;
  change (init_signal (fetch_init env ?options ?signal)) with signal;
  rewrite ?fresh_signal_not_aborted; run_monad.


(** X8. When [fetch] itself rejects in time (the network fails), [request]
    rejects with the very same error: it logs it once on the console,
    clears its timer, and reads no body. *)
Theorem network_failure_propagates
        (endpoint : string) (options : Options) (w : World) (e : ErrorObj) :
  network env (buildURL env endpoint) (fetch_init env options (next_ctrl w)) =
    {| timing := InTime; outcome := inr e |} →
  let done := request env endpoint options w in
  done.1 = Throw e
  ∧ trace done.2 =
      trace w
      ++ [EvSetTimeout (next_timer w) TIMEOUT;
          EvFetch (buildURL env endpoint) (fetch_init env options (next_ctrl w));
          EvConsoleError e;
          EvClearTimeout (next_timer w)]
  ∧ timers done.2 !! next_timer w = None.
Proof.
  intros Hnet done. subst done. issue_fetch Hnet.
  split; [done|]. split; [by rewrite <- !app_assoc|]. apply lookup_delete_eq.
Qed.

(** X9. When nothing arrives before the deadline, the timer fires, the
    signal aborts the fetch, and [request] rejects with the abort reason,
    whatever the network would have answered later. *)
Theorem fetch_deadline_aborts
        (endpoint : string) (options : Options) (w : World) :
  timing (network env (buildURL env endpoint)
            (fetch_init env options (next_ctrl w))) = Late →
  let done := request env endpoint options w in
  done.1 = Throw (abort_reason env)
  ∧ trace done.2 =
      trace w
      ++ [EvSetTimeout (next_timer w) TIMEOUT;
          EvFetch (buildURL env endpoint) (fetch_init env options (next_ctrl w));
          EvTimerFired (next_ctrl w);
          EvConsoleError (abort_reason env);
          EvClearTimeout (next_timer w)]
  ∧ next_ctrl w ∈ aborted done.2
  ∧ timers done.2 !! next_timer w = None.
Proof.
  intros Hlate done. subst done.
  unfold request. run_monad. rewrite Hlate. run_monad.
  change (init_signal (fetch_init env options (next_ctrl w))) with (next_ctrl w).
  destruct (decide _) as [Hnone|_]; [by apply guarded_while_armed in Hnone|].
  run_monad. rewrite signal_aborted. run_monad.
  split; [done|]. split; [by rewrite <- !app_assoc|].
  split; [|apply lookup_delete_eq].
  apply elem_of_union_l, elem_of_singleton_2. done.
Qed.

(** X10. The timer is still armed while the body of an error response is
    read: when that body does not arrive before the deadline, [request]
    rejects with the abort reason, and the HTTP status of the response
    does not reach the caller. *)
Theorem error_body_deadline_aborts
        (endpoint : string) (options : Options) (w : World) (res : Response) :
  network env (buildURL env endpoint) (fetch_init env options (next_ctrl w)) =
    {| timing := InTime; outcome := inl res |} →
  res_ok res = false →
  res_body_timing res = Late →
  let done := request env endpoint options w in
  done.1 = Throw (abort_reason env)
  ∧ trace done.2 =
      trace w
      ++ [EvSetTimeout (next_timer w) TIMEOUT;
          EvFetch (buildURL env endpoint) (fetch_init env options (next_ctrl w));
          EvReadBody;
          EvTimerFired (next_ctrl w);
          EvConsoleError (abort_reason env);
          EvClearTimeout (next_timer w)]
  ∧ timers done.2 !! next_timer w = None.
Proof.
  intros Hnet Hok Hlate done. subst done. issue_fetch Hnet.
  rewrite Hok. cbn [negb]. run_monad. rewrite Hlate. run_monad.
  destruct (decide _) as [Hnone|_]; [by apply guarded_while_armed in Hnone|].
  run_monad. rewrite signal_aborted. run_monad.
  split; [done|]. split; [by rewrite <- !app_assoc|]. apply lookup_delete_eq.
Qed.

End Paths.

Section Discipline.

Import Http Observe Parts.

Variable env : Platform.
Variable step : World → World → Prop.
Variable ctrl : nat.

Hypothesis step_refl : ∀ w, step w w.
Hypothesis step_trans : ∀ w1 w2 w3, step w1 w2 → step w2 w3 → step w1 w3.
Hypothesis step_log : ∀ ev w, after_fetch ev → step w (log ev w).
Hypothesis step_deadline : ∀ w, step w (deadline_passes ctrl w).2.

Lemma keeps_ret {A} (Q : A → Prop) (a : A) : Q a → keeps step Q (ret a).
Proof. intros HQ w. split; [apply step_refl|]. by intros a' [= <-]. Qed.

Lemma keeps_throw {A} (Q : A → Prop) (e : ErrorObj) : keeps step Q (throw e).
Proof. intros w. split; [apply step_refl|]. done. Qed.

Lemma keeps_bind {A B} (Q : A → Prop) (R : B → Prop) (m : M A) (k : A → M B) :
  keeps step Q m → (∀ a, Q a → keeps step R (k a)) → keeps step R (bind m k).
Proof.
  intros Hm Hk w. unfold bind. destruct (Hm w) as (Hs & HQ).
  destruct (m w) as [[a|e] w1]; cbn in *; [|done].
  destruct (Hk a (HQ a eq_refl) w1) as (Hs' & HR).
  split; [by eapply step_trans|done].
Qed.

Lemma keeps_try_catch {A} (Q : A → Prop) (m : M A) (handler : ErrorObj → M A) :
  keeps step Q m → (∀ e, keeps step Q (handler e)) →
  keeps step Q (try_catch m handler).
Proof.
  intros Hm Hh w. unfold try_catch. destruct (Hm w) as (Hs & HQ).
  destruct (m w) as [[a|e] w1]; cbn in *; [done|].
  destruct (Hh e w1) as (Hs' & HR). split; [by eapply step_trans|done].
Qed.

Lemma keeps_emit (ev : Event) : after_fetch ev → keeps step (λ _, True) (emit ev).
Proof. intros Hev w. split; [by apply step_log|done]. Qed.

Lemma keeps_await {A} (t : Timing) (result : A + ErrorObj) :
  keeps step (λ _, True) (await env ctrl t result).
Proof.
  unfold await. eapply keeps_bind with (Q := λ _, True).
  { destruct t; [by apply keeps_ret|]. intros w. split; [apply step_deadline|done]. }
  intros _ _. eapply keeps_bind with (Q := λ _, True).
  { intros w. split; [apply step_refl|done]. }
  intros [] _; [apply keeps_throw|].
  destruct result; [by apply keeps_ret | apply keeps_throw].
Qed.

Lemma keeps_Response_text (res : Response * nat) :
  res.2 = ctrl → keeps step (λ _, True) (Response_text env res).
Proof.
  intros Hres. unfold Response_text. rewrite Hres.
  eapply keeps_bind; [by apply keeps_emit|]. intros _ _. apply keeps_await.
Qed.

Lemma keeps_parse (text : string) : keeps step (λ _, True) (parse env text).
Proof.
  unfold parse. eapply keeps_bind; [by apply keeps_emit|]. intros _ _.
  destruct (JSON_parse env text); [by apply keeps_ret | apply keeps_throw].
Qed.

Lemma keeps_settle (res : Response * nat) :
  res.2 = ctrl → keeps step (returned_keeps step) (settle env res).
Proof.
  intros Hres. unfold settle. destruct (negb (res_ok res.1)).
  - cbv zeta. eapply keeps_bind; [by apply keeps_Response_text|]. intros text _.
    eapply keeps_bind with (Q := λ _, True); [|intros; apply keeps_throw].
    apply keeps_try_catch; [|by intros; apply keeps_ret].
    destruct (truthy text); [apply keeps_parse | by apply keeps_ret].
  - destruct (res_status res.1 =? 204); [by apply keeps_ret|]. cbv zeta.
    destruct (from_option (λ ct, includes ct "application/json") false
                (headers_get res "content-type")); apply keeps_ret; cbn.
    + unfold Response_json. eapply keeps_bind; [by apply keeps_Response_text|].
      intros text _. apply keeps_parse.
    + eapply keeps_bind; [by apply keeps_Response_text|].
      by intros; apply keeps_ret.
Qed.

Lemma keeps_answer (endpoint : string) (options : Options) :
  keeps step (returned_keeps step) (answer env endpoint options ctrl).
Proof.
  unfold answer. cbv zeta. apply keeps_try_catch.
  - eapply keeps_bind with (Q := λ res, res.2 = ctrl).
    + eapply keeps_bind; [apply keeps_await|]. intros res _. by apply keeps_ret.
    + intros res Hres. by apply keeps_settle.
  - intros error. unfold on_error, console_error.
    eapply keeps_bind; [by apply keeps_emit|]. intros; apply keeps_throw.
Qed.

(** The course of one call, for any such relation: the timer is set, the
    fetch is issued, the answer is handled, the timer is cleared, and what
    is left of the body is waited for. *)
Lemma request_course (endpoint : string) (options : Options) (w : World) :
  ctrl = next_ctrl w →
  ∃ w2 : World,
    step (log (EvFetch (buildURL env endpoint) (fetch_init env options ctrl))
              (timeoutSignal TIMEOUT w).2) w2
    ∧ step (log (EvClearTimeout (next_timer w))
                (set_timers (delete (next_timer w)) w2))
           (request env endpoint options w).2.
Proof.
  intros Hctrl.
  unfold request.
  rewrite (bind_normal _ _ _ _ _ (timeoutSignal_run TIMEOUT w)).
  cbv beta iota. rewrite timeoutSignal_run. cbn [snd]. rewrite <- Hctrl.
  change (try_catch _ _) with (attempt env endpoint options ctrl).
  unfold bind. rewrite try_finally_clearTimeout.
  change (attempt env endpoint options ctrl ?w1)
    with (answer env endpoint options ctrl
            (log (EvFetch (buildURL env endpoint)
                    (fetch_init env options ctrl)) w1)).
  cbn [log next_timer next_ctrl timers aborted trace].
  match goal with |- context [answer _ _ _ _ ?w1] =>
    destruct (keeps_answer endpoint options w1) as (Hstep & Hreturned);
    destruct (answer env endpoint options ctrl w1) as [[returned|e] w2]
  end; cbn [fst snd] in *; exists w2; (split; [exact Hstep|]).
  - specialize (Hreturned returned eq_refl).
    destruct returned as [v|p]; cbn; [apply step_refl|].
    apply Hreturned.
  - apply step_refl.
Qed.

End Discipline.

Section OneCall.

Import Http Observe Parts.

Variable env : Platform.

Lemma logs_only_refl (allowed : Event → Prop) (w : World) : logs_only allowed w w.
Proof. exists []. by rewrite app_nil_r. Qed.

Lemma logs_only_trans (allowed : Event → Prop) (w1 w2 w3 : World) :
  logs_only allowed w1 w2 → logs_only allowed w2 w3 → logs_only allowed w1 w3.
Proof.
  intros (e1 & H1 & F1) (e2 & H2 & F2). exists (e1 ++ e2).
  split; [by rewrite H2, H1, app_assoc | by apply Forall_app].
Qed.

Lemma logs_only_log (allowed : Event → Prop) (ev : Event) (w : World) :
  allowed ev → logs_only allowed w (log ev w).
Proof. intros Hev. exists [ev]. split; [done | by repeat constructor]. Qed.

Lemma logs_only_deadline (ctrl : nat) (w : World) :
  logs_only after_fetch w (deadline_passes ctrl w).2.
Proof.
  unfold deadline_passes. case_decide; cbn; [apply logs_only_refl|].
  exists [EvTimerFired ctrl]. split; [done | by repeat constructor].
Qed.

(** X11. A call issues exactly one fetch and arms exactly one timer,
    whatever happens: its log is [setTimeout], the [fetch], then only body
    reads, parses, timer firings and console errors, then [clearTimeout],
    then again only such events.  Nothing is retried. *)
Theorem one_fetch_per_call (endpoint : string) (options : Options) (w : World) :
  ∃ before after : list Event,
    trace (request env endpoint options w).2 =
      trace w
      ++ EvSetTimeout (next_timer w) TIMEOUT
         :: EvFetch (buildURL env endpoint)
              (fetch_init env options (next_ctrl w))
         :: before ++ EvClearTimeout (next_timer w) :: after
    ∧ Forall after_fetch before ∧ Forall after_fetch after.
Proof.
  destruct (request_course env (logs_only after_fetch) (next_ctrl w)
              (logs_only_refl _) (logs_only_trans _)
              (λ ev w Hev, logs_only_log _ ev w Hev)
              (logs_only_deadline _) endpoint options w eq_refl)
    as (w2 & (before & Hbefore & Fbefore) & (after & Hafter & Fafter)).
  exists before, after. split; [|done].
  rewrite Hafter. cbn [trace log set_timers]. rewrite Hbefore.
  cbn [trace log]. rewrite timeoutSignal_run. cbn [snd trace].
  by rewrite <- !app_assoc.
Qed.






End OneCall.

Section Wire.

Import Http.

Variable env : Platform.


End Wire.

Section Lossless.


End Lossless.

Section ServiceLayers.

Import Http.

Variable env : Platform.
Variable as_page : JSValue → PaginatedBusResponse.t + ErrorObj.

(** The address [getPaginatedBuses] asks for. *)
Lemma getPaginatedBuses_run (page size : Z) (w : World) :
  BusService.getPaginatedBuses env page size w =
  match get env (String.append "/api/v1/buses"
                   (String.append "?paginated=true&page="
                      (String.append (pretty page)
                         (String.append "&size=" (pretty size))))) None w with
  | (Normal response, w') => (Normal response, w')
  | (Throw error, w') => (Throw error, log (EvConsoleError error) w')
  end.
Proof.
  unfold BusService.getPaginatedBuses, try_catch, bind, console_error, emit,
    throw, ret.
  cbn [BusService.endpointPath].
  by destruct (get env _ None w) as [[response|error] w'].
Qed.

Lemma getPaginated_run (page size : Z) (w : World) :
  BusService.getPaginated env as_page page size w =
  match BusService.getPaginatedBuses env page size w with
  | (Normal response, w') =>
      match as_page response with
      | inl envelope => (Normal (BusAssembler.toPaginatedResult envelope), w')
      | inr type_error => (Throw type_error, w')
      end
  | (Throw error, w') => (Throw error, w')
  end.
Proof.
  unfold BusService.getPaginated, try_catch, bind, throw, ret.
  destruct (BusService.getPaginatedBuses env page size w)
    as [[response|error] w']; [|done].
  by destruct (as_page response).
Qed.

(** X15. The two layers over the HTTP client add nothing of their own.
    [getPaginated] issues the one GET request for
    [/api/v1/buses?paginated=true&page=..&size=..]; when the request
    fails, it fails with the same error object (status and data included)
    and the api layer logs it one more time; when the request resolves,
    the value goes through the assembler, and a value without a [content]
    array fails with the [TypeError] of the assembler, unlogged. *)
Theorem service_layers_pass_through (page size : Z) (w : World) :
  let url := String.append "/api/v1/buses"
               (String.append "?paginated=true&page="
                  (String.append (pretty page)
                     (String.append "&size=" (pretty size)))) in
  let asked := request env url (with_method None "GET" None) w in
  let done := BusService.getPaginated env as_page page size w in
  match asked.1 with
  | Throw error =>
      done.1 = Throw error
      ∧ done.2 = log (EvConsoleError error) asked.2
  | Normal response =>
      done.2 = asked.2
      ∧ done.1 = match as_page response with
                 | inl envelope => Normal (BusAssembler.toPaginatedResult envelope)
                 | inr type_error => Throw type_error
                 end
  end.
Proof.
  intros url asked done. subst url asked done.
  rewrite getPaginated_run, getPaginatedBuses_run. unfold get.
  destruct (request env _ _ w) as [[response|error] w']; cbn [fst snd]; [|done].
  by destruct (as_page response).
Qed.

End ServiceLayers.

(* ===================================================================== *)
(** * The hook and the page *)
(* ===================================================================== *)

Section HookAndPage.

Import Http.

Variable env : Platform.
Variable as_page : JSValue → PaginatedBusResponse.t + ErrorObj.
Variable toLocaleDateString : string → string.

(** A fetch never leaves the hook loading.  A fetch that fails keeps
    the list and the metadata of before and sets the error to the message
    of the error; a fetch that succeeds replaces the list and the metadata
    together, from the one result, and leaves no error. *)
Lemma fetch_completion (currentPage pageSize : Z) (st : Hook.State) (w : World) :
  let settled := BusService.getPaginated env as_page currentPage pageSize w in
  let st' := (Hook.fetchBuses env as_page currentPage pageSize st w).1 in
  Hook.loading st' = false
  ∧ match settled.1 with
    | Normal result =>
        Hook.error st' = None
        ∧ Hook.buses st' = PaginatedBusResult.buses result
        ∧ Hook.pagination st' = Some (Hook.metadata_of result)
    | Throw err =>
        Hook.error st' = Some (err_message err)
        ∧ Hook.buses st' = Hook.buses st
        ∧ Hook.pagination st' = Hook.pagination st
    end.
Proof.
  intros settled st'. subst settled st'. unfold Hook.fetchBuses. cbn [fst].
  by destruct (BusService.getPaginated env as_page currentPage pageSize w).1.
Qed.



(** X17. The error panel is shown exactly when the error is a non-empty
    message.  Otherwise the page is shown: the active and the inactive
    count add up to the number of buses in the list (not to the total of
    the header, which is the total of the metadata), and the table is the
    spinner while loading, the empty notice for an empty list, and
    otherwise one row per bus, in order, keyed by the bus id. *)
Theorem page_contents (currentPage : Z) (st : Hook.State) :
  match BusPage.BusPage toLocaleDateString currentPage st with
  | BusPage.ErrorPanel message =>
      Hook.error st = Some message ∧ message ≠ EmptyString
  | BusPage.Page header table control =>
      (Hook.error st = None ∨ Hook.error st = Some EmptyString)
      ∧ (BusPage.active header + BusPage.inactive header =
         List.length (Hook.buses st))%nat
      ∧ (∀ shown, Hook.pagination st = Some shown →
                  BusPage.total header = Hook.totalElements shown)
      ∧ BusPage.refresh_disabled header = Hook.loading st
      ∧ match table with
        | BusPage.Spinner => Hook.loading st = true
        | BusPage.NoBuses => Hook.loading st = false ∧ Hook.buses st = []
        | BusPage.Rows rows =>
            Hook.loading st = false ∧ Hook.buses st ≠ []
            ∧ BusPage.key <$> rows = Bus.id <$> Hook.buses st
            ∧ BusPage.activeLabel <$> rows =
              (λ bus, if Bus.isActive bus then "Yes" else "No") <$> Hook.buses st
        end
  end.
Proof.
  unfold BusPage.BusPage.
  assert (Hpage :
    (BusPage.active
       (BusPage.BusPageHeader
          (Hook.totalElements
             (default
                {| Hook.currentPage := currentPage;
                   Hook.totalPages :=
                     ceil_div (Z.of_nat (List.length (Hook.buses st))) 5;
                   Hook.totalElements := Z.of_nat (List.length (Hook.buses st));
                   Hook.pageSize := 5;
                   Hook.isFirst := false; Hook.isLast := false |}
                (Hook.pagination st)))
          (List.length (List.filter (λ bus, Bus.isActive bus) (Hook.buses st)))
          (List.length
             (List.filter (λ bus, negb (Bus.isActive bus)) (Hook.buses st)))
          (Hook.loading st))
     + BusPage.inactive
         (BusPage.BusPageHeader
            (Hook.totalElements
               (default
                  {| Hook.currentPage := currentPage;
                     Hook.totalPages :=
                       ceil_div (Z.of_nat (List.length (Hook.buses st))) 5;
                     Hook.totalElements :=
                       Z.of_nat (List.length (Hook.buses st));
                     Hook.pageSize := 5;
                     Hook.isFirst := false; Hook.isLast := false |}
                  (Hook.pagination st)))
            (List.length (List.filter (λ bus, Bus.isActive bus) (Hook.buses st)))
            (List.length
               (List.filter (λ bus, negb (Bus.isActive bus)) (Hook.buses st)))
            (Hook.loading st))
     = List.length (Hook.buses st))%nat
    ∧ match BusPage.BusTable toLocaleDateString (Hook.buses st) (Hook.loading st)
      with
      | BusPage.Spinner => Hook.loading st = true
      | BusPage.NoBuses => Hook.loading st = false ∧ Hook.buses st = []
      | BusPage.Rows rows =>
          Hook.loading st = false ∧ Hook.buses st ≠ []
          ∧ BusPage.key <$> rows = Bus.id <$> Hook.buses st
          ∧ BusPage.activeLabel <$> rows =
            (λ bus, if Bus.isActive bus then "Yes" else "No") <$> Hook.buses st
      end).
  { split; [cbn; apply List.filter_length|].
    unfold BusPage.BusTable. destruct (Hook.loading st); [done|].
    destruct (Hook.buses st) as [|bus buses]; [done|].
    cbn [List.length Nat.eqb]. split; [done|]. split; [done|].
    rewrite <- !list_fmap_compose. done. }
  destruct Hpage as [Hcount Htable].
  destruct (Hook.error st) as [[|c message]|]; cbn [truthy].
  - split; [by right|]. split; [exact Hcount|]. split; [by intros shown ->|].
    split; [done|exact Htable].
  - done.
  - split; [by left|]. split; [exact Hcount|]. split; [by intros shown ->|].
    split; [done|exact Htable].
Qed.

End HookAndPage.

Section EndToEnd.

Import Http Observe Parts.

Variable env : Platform.
Variable as_page : JSValue → PaginatedBusResponse.t + ErrorObj.
Variable toLocaleDateString : string → string.

Lemma error_outcome (endpoint : string) (options : Options) (w : World)
      (res : Response) (text : string) :
  network env (buildURL env endpoint) (fetch_init env options (next_ctrl w)) =
    {| timing := InTime; outcome := inl res |} →
  res_ok res = false →
  res_body_timing res = InTime →
  res_body res = inl text →
  (request env endpoint options w).1 =
  Throw {| err_name := "Error";
           err_message := if truthy text then text else res_statusText res;
           err_status := Some (res_status res);
           err_data := Some (payload_built env text) |}.
Proof.
  intros Hnet Hok Htiming Hbody.
  unfold request. run_monad. rewrite Hnet. run_monad.
  change (init_signal (fetch_init env options (next_ctrl w))) with (next_ctrl w).
  rewrite fresh_signal_not_aborted. run_monad.
  rewrite Hok. cbn [negb]. run_monad. rewrite Htiming, Hbody. run_monad.
  rewrite fresh_signal_not_aborted. run_monad.
  unfold payload_built, payload_as_specified.
  destruct (truthy text); run_monad; [|reflexivity].
  destruct (JSON_parse env text); run_monad; reflexivity.
Qed.

Lemma json_outcome (endpoint : string) (options : Options) (w : World)
      (res : Response) (text : string) (value : JSValue) :
  network env (buildURL env endpoint) (fetch_init env options (next_ctrl w)) =
    {| timing := InTime; outcome := inl res |} →
  res_ok res = true →
  res_status res ≠ 204 →
  from_option (λ ct, includes ct "application/json") false
    (res_headers res !! "content-type") = true →
  res_body res = inl text →
  JSON_parse env text = inl value →
  unguarded (next_ctrl w) w →
  (request env endpoint options w).1 = Normal value.
Proof.
  intros Hnet Hok Hstatus Hjson Hbody Hparse Hfree.
  unfold request. run_monad. rewrite Hnet. run_monad.
  change (init_signal (fetch_init env options (next_ctrl w))) with (next_ctrl w).
  rewrite fresh_signal_not_aborted. run_monad.
  rewrite Hok. cbn [negb].
  rewrite (proj2 (Z.eqb_neq _ _) Hstatus). unfold headers_get. cbn [fst].
  rewrite Hjson. run_monad.
  destruct (res_body_timing res); run_monad.
  - rewrite fresh_signal_not_aborted, Hbody. run_monad.
    by rewrite Hparse.
  - destruct (decide _) as [_|Hguard];
      [|exfalso; by apply Hguard, unguarded_after_clear].
    run_monad. rewrite fresh_signal_not_aborted, Hbody. run_monad.
    by rewrite Hparse.
Qed.

(** X18. From an error response to the screen.  When the server answers
    the page request with a non-success status and its body is read, the
    hook ends up not loading, with the list and metadata of before, and
    with the raw body as error, or the status text when the body is
    empty.  The page then shows the error panel with that message, unless
    the message is empty (no body and no status text): then the failure
    is not shown at all and the page renders as if nothing had failed. *)
Theorem http_error_on_screen (page size shownPage : Z) (st : Hook.State)
        (w : World) (res : Response) (text : string) :
  network env
    (buildURL env
       (String.append "/api/v1/buses"
          (String.append "?paginated=true&page="
             (String.append (pretty page)
                (String.append "&size=" (pretty size))))))
    (fetch_init env (with_method None "GET" None) (next_ctrl w)) =
    {| timing := InTime; outcome := inl res |} →
  res_ok res = false →
  res_body_timing res = InTime →
  res_body res = inl text →
  let message := if truthy text then text else res_statusText res in
  let st' := (Hook.fetchBuses env as_page page size st w).1 in
  Hook.error st' = Some message
  ∧ Hook.loading st' = false
  ∧ Hook.buses st' = Hook.buses st
  ∧ Hook.pagination st' = Hook.pagination st
  ∧ (message ≠ EmptyString →
     BusPage.BusPage toLocaleDateString shownPage st' = BusPage.ErrorPanel message)
  ∧ (message = EmptyString →
     ∃ header table control,
       BusPage.BusPage toLocaleDateString shownPage st' =
       BusPage.Page header table control).
Proof.
  intros Hnet Hok Htiming Hbody message st'. subst st'.
  pose proof (error_outcome _ _ _ _ _ Hnet Hok Htiming Hbody) as Hasked.
  fold message in Hasked.
  unfold Hook.fetchBuses. cbn [fst].
  rewrite getPaginated_run, getPaginatedBuses_run. unfold get.
  destruct (request env _ _ w) as [asked w']. cbn [fst] in Hasked. subst asked.
  cbn [fst]. unfold Hook.completed, Hook.pending. cbn.
  repeat (split; [done|]). unfold BusPage.BusPage. cbn [Hook.error].
  split.
  - intros Hmessage. destruct message; [done|]. reflexivity.
  - intros ->. cbn [truthy]. by eexists _, _, _.
Qed.

(** X19. From a page envelope to the screen.  When the server answers the
    page request in time with a success status other than 204, a JSON
    content type and a body that parses to a page envelope, the hook ends
    up not loading, without error, with one bus per resource of the
    envelope and the metadata of the envelope; the page shows the total
    of the envelope and a pagination control exactly when the envelope
    has more than one page.  The body may arrive after the deadline. *)
Theorem envelope_on_screen (page size shownPage : Z) (st : Hook.State)
        (w : World) (res : Response) (text : string) (value : JSValue)
        (envelope : PaginatedBusResponse.t) :
  network env
    (buildURL env
       (String.append "/api/v1/buses"
          (String.append "?paginated=true&page="
             (String.append (pretty page)
                (String.append "&size=" (pretty size))))))
    (fetch_init env (with_method None "GET" None) (next_ctrl w)) =
    {| timing := InTime; outcome := inl res |} →
  res_ok res = true →
  res_status res ≠ 204 →
  from_option (λ ct, includes ct "application/json") false
    (res_headers res !! "content-type") = true →
  res_body res = inl text →
  JSON_parse env text = inl value →
  as_page value = inl envelope →
  unguarded (next_ctrl w) w →
  let st' := (Hook.fetchBuses env as_page page size st w).1 in
  Hook.error st' = None
  ∧ Hook.loading st' = false
  ∧ Hook.buses st' =
    BusAssembler.toEntityFromResource <$> PaginatedBusResponse.content envelope
  ∧ Hook.pagination st' =
    Some {| Hook.currentPage := PaginatedBusResponse.number envelope;
            Hook.totalPages := PaginatedBusResponse.totalPages envelope;
            Hook.totalElements := PaginatedBusResponse.totalElements envelope;
            Hook.pageSize := PaginatedBusResponse.size envelope;
            Hook.isFirst := PaginatedBusResponse.first envelope;
            Hook.isLast := PaginatedBusResponse.last envelope |}
  ∧ ∃ header table control,
      BusPage.BusPage toLocaleDateString shownPage st' =
        BusPage.Page header table control
      ∧ BusPage.total header = PaginatedBusResponse.totalElements envelope
      ∧ (is_Some control ↔ 1 < PaginatedBusResponse.totalPages envelope).
Proof.
  intros Hnet Hok Hstatus Hjson Hbody Hparse Hpage Hfree st'. subst st'.
  pose proof (json_outcome _ _ _ _ _ _ Hnet Hok Hstatus Hjson Hbody Hparse Hfree)
    as Hasked.
  unfold Hook.fetchBuses. cbn [fst].
  rewrite getPaginated_run, getPaginatedBuses_run. unfold get.
  destruct (request env _ _ w) as [asked w']. cbn [fst] in Hasked. subst asked.
  rewrite Hpage. cbn [fst]. unfold Hook.completed, Hook.pending. cbn.
  repeat (split; [done|]). unfold BusPage.BusPage. cbn.
  eexists _, _, _. split; [reflexivity|]. split; [done|].
  destruct (Z.gtb_spec (PaginatedBusResponse.totalPages envelope) 1) as [Hmany|Hfew].
  - rewrite Pagination_renders. cbn. lia.
  - split; [by intros []|lia].
Qed.

End EndToEnd.

(* ===================================================================== *)
(** * The unpaginated list *)
(* ===================================================================== *)

Section WholeFleet.

Import Http Fleet.

Variable env : Platform.
Variable type_error : JSValue → ErrorObj.

Lemma Array_map_all (elements : list JSValue) (w : World) :
  Forall (λ element, nullish element = false) elements →
  Array_map (toEntityFromResource type_error) elements w =
  (Normal (entity_of <$> elements), w).
Proof.
  induction 1 as [|element rest Helement Hrest IH]; [done|].
  cbn [Array_map]. unfold toEntityFromResource at 1.
  destruct element; try discriminate Helement;
    (unfold bind; rewrite IH; reflexivity).
Qed.

Lemma Array_map_fails (good rest : list JSValue) (bad : JSValue) (w : World) :
  Forall (λ element, nullish element = false) good →
  nullish bad = true →
  Array_map (toEntityFromResource type_error) (good ++ bad :: rest) w =
  (Throw (type_error bad), w).
Proof.
  intros Hgood Hbad. induction Hgood as [|element good Helement Hgood IH].
  - cbn. by destruct bad.
  - cbn [app Array_map]. unfold toEntityFromResource at 1.
    destruct element; try discriminate Helement;
      (unfold bind; rewrite IH; reflexivity).
Qed.

Lemma getAllBuses_run (w : World) :
  getAllBuses env w =
  match request env "/api/v1/buses" (with_method None "GET" None) w with
  | (Normal response, w') =>
      (Normal (match resources_in response with
               | Some elements => JArray elements
               | None =>
                   match response with
                   | JObject _ =>
                       let buses := default JUndefined
                                      (Envelope.member "buses" response) in
                       if truthy_value buses then buses else JArray []
                   | _ => JArray []
                   end
               end), w')
  | (Throw error, w') => (Throw error, log (EvConsoleError error) w')
  end.
Proof.
  unfold getAllBuses, try_catch, bind, get, console_error, emit, throw.
  cbn [BusService.endpointPath].
  destruct (request env _ _ w) as [[response|error] w']; [|done].
  destruct response as [| |b|n|s|elements|members].
  - done.
  - done.
  - by destruct b.
  - unfold and_then. cbn. destruct (negb (n =? 0)) eqn:Hn; cbn; by rewrite ?Hn.
  - unfold and_then. cbn. destruct (truthy s) eqn:Hs; cbn; by rewrite ?Hs.
  - done.
  - unfold and_then, get_prop, resources_in, Array_isArray.
    cbn [truthy_value].
    destruct (Envelope.member "buses" (JObject members))
      as [[| |b|n|s|l|m]|]; cbn; try done.
    + by destruct b.
    + by destruct (n =? 0).
    + by destruct s.
Qed.

(** X20. [getAll] by the shape of what the server sends.  When the
    request fails, [getAll] fails with the same error, logged once more.
    When the request resolves to an array, or to an object whose [buses]
    is an array, [getAll] maps its elements: it resolves to one entity per
    element, in order, unless an element is [null] or [undefined], in
    which case it fails with the [TypeError] of the first such element.
    For every other value (no content, text, a number, [null], an object
    without a [buses] array) it resolves to the empty list: no error, and
    nothing logged. *)
Theorem getAll_by_shape (w : World) :
  let asked := request env "/api/v1/buses" (with_method None "GET" None) w in
  let done := getAll env type_error w in
  match asked.1 with
  | Throw error =>
      done.1 = Throw error ∧ done.2 = log (EvConsoleError error) asked.2
  | Normal response =>
      done.2 = asked.2
      ∧ match resources_in response with
        | None => done.1 = Normal []
        | Some elements =>
            (Forall (λ element, nullish element = false) elements →
             done.1 = Normal (entity_of <$> elements))
            ∧ (∀ good bad rest,
                  elements = good ++ bad :: rest →
                  Forall (λ element, nullish element = false) good →
                  nullish bad = true →
                  done.1 = Throw (type_error bad))
        end
  end.
Proof.
  intros asked done. subst asked done.
  unfold getAll, try_catch, bind. rewrite getAllBuses_run.
  destruct (request env _ _ w) as [[response|error] w']; cbn [fst snd]; [|done].
  destruct (resources_in response) as [elements|] eqn:Hshape.
  - cbn [truthy_value negb].
    assert (Hworld : ∀ w0, (Array_map (toEntityFromResource type_error)
                              elements w0).2 = w0).
    { clear. induction elements as [|element rest IH]; intros w0; [done|].
      cbn [Array_map]. destruct (toEntityFromResource type_error element);
        [|done].
      unfold bind. specialize (IH w0).
      by destruct (Array_map _ rest w0) as [[others|e] w1]. }
    specialize (Hworld w').
    split; [|split].
    + by destruct (Array_map _ elements w') as [[entities|e] w1].
    + intros Hall. by rewrite Array_map_all.
    + intros good bad rest -> Hgood Hbad. by rewrite Array_map_fails.
  - destruct response as [| |b|n|s|elements|members]; try done.
    unfold resources_in in Hshape. cbv zeta.
    destruct (Envelope.member "buses" (JObject members))
      as [[| |b|n|s|l|m]|]; cbn; try done.
    + by destruct b.
    + destruct (n =? 0) eqn:Hn; cbn; by rewrite ?Hn.
    + by destruct s.
Qed.

Lemma number_at_member (name : string) (v : JSValue) (n : Z) :
  Envelope.number_at name v = Some n → Envelope.member name v = Some (JNumber n).
Proof.
  unfold Envelope.number_at.
  destruct (Envelope.member name v) as [[]|]; congruence.
Qed.

Lemma string_at_member (name : string) (v : JSValue) (s : string) :
  Envelope.string_at name v = Some s → Envelope.member name v = Some (JString s).
Proof.
  unfold Envelope.string_at.
  destruct (Envelope.member name v) as [[]|]; congruence.
Qed.

Lemma bool_at_member (name : string) (v : JSValue) (b : bool) :
  Envelope.bool_at name v = Some b → Envelope.member name v = Some (JBool b).
Proof.
  unfold Envelope.bool_at.
  destruct (Envelope.member name v) as [[]|]; congruence.
Qed.

(** On a resource that has the seven members with their types, the
    assembler on values and the assembler on records agree. *)
Lemma entity_agrees (v : JSValue) (r : BusResource.t) :
  Envelope.resource v = Some r →
  nullish v = false
  ∧ bus_of (entity_of v) = Some (BusAssembler.toEntityFromResource r).
Proof.
  unfold Envelope.resource. intros Hr.
  destruct (Envelope.number_at "id" v) as [id|] eqn:Hid; [|done].
  destruct (Envelope.number_at "busNumber" v) as [busNumber|] eqn:Hnumber;
    [|done].
  destruct (Envelope.string_at "licensePlate" v) as [plate|] eqn:Hplate; [|done].
  destruct (Envelope.string_at "brand" v) as [brand|] eqn:Hbrand; [|done].
  destruct (Envelope.string_at "characteristics" v) as [chars|] eqn:Hchars;
    [|done].
  destruct (Envelope.bool_at "isActive" v) as [isActive|] eqn:Hactive; [|done].
  destruct (Envelope.string_at "createdAt" v) as [createdAt|] eqn:Hcreated;
    [|done].
  cbn in Hr. injection Hr as <-.
  apply number_at_member in Hid, Hnumber.
  apply string_at_member in Hplate, Hbrand, Hchars, Hcreated.
  apply bool_at_member in Hactive.
  destruct v as [| |?|?|?|?|members]; try discriminate Hid.
  split; [done|]. unfold entity_of, get_prop.
  rewrite Hid, Hnumber, Hplate, Hbrand, Hchars, Hactive, Hcreated.
  reflexivity.
Qed.

Lemma entities_agree (elements : list JSValue) :
  ∀ resources : list BusResource.t,
    mapM Envelope.resource elements = Some resources →
    Forall (λ element, nullish element = false) elements
    ∧ mapM bus_of (entity_of <$> elements) =
      Some (BusAssembler.toEntityFromResource <$> resources).
Proof.
  induction elements as [|element rest IH]; intros resources Hall.
  - injection Hall as <-. by split.
  - cbn in Hall.
    destruct (Envelope.resource element) as [r|] eqn:Hr; [|done].
    destruct (mapM Envelope.resource rest) as [rs|] eqn:Hrs; [|done].
    cbn in Hall. injection Hall as <-.
    destruct (entity_agrees element r Hr) as [Hnull Hbus].
    destruct (IH rs eq_refl) as [Hnulls Hbuses].
    split; [by constructor|]. rewrite !fmap_cons. cbn [mapM].
    rewrite Hbus. cbn [mbind option_bind]. by rewrite Hbuses.
Qed.

(** X21. On a well-formed answer the unchecked code does what its types
    promise.  When the request resolves to an array of resources, or to an
    object whose [buses] is such an array, each with the seven members at
    their types, [getAll] resolves to one entity per resource, and the
    entities read at the type [Bus] are the buses the typed assembler
    gives for the resources. *)
Theorem getAll_on_resources (w : World) (response : JSValue)
        (elements : list JSValue) (resources : list BusResource.t) (total : Z) :
  (request env "/api/v1/buses" (with_method None "GET" None) w).1 =
    Normal response →
  resources_in response = Some elements →
  mapM Envelope.resource elements = Some resources →
  ∃ entities : list JSValue,
    (getAll env type_error w).1 = Normal entities
    ∧ mapM bus_of entities =
      Some (toEntitiesFromResponse
              {| BusesResponse.buses := resources;
                 BusesResponse.total := total |}).
Proof.
  intros Hasked Hshape Htyped.
  destruct (entities_agree elements resources Htyped) as [Hnull Hbuses].
  exists (entity_of <$> elements). split; [|exact Hbuses].
  unfold getAll, try_catch, bind. rewrite getAllBuses_run.
  destruct (request env _ _ w) as [asked w']. cbn [fst] in Hasked. subst asked.
  rewrite Hshape. cbn [truthy_value negb]. by rewrite Array_map_all.
Qed.

End WholeFleet.

(* ===================================================================== *)
(** * The results above at concrete exchanges *)
(* ===================================================================== *)

Lemma idle_unguarded : Parts.unguarded 0 Reference.idle.
Proof. intros id. cbn. by rewrite lookup_empty. Qed.



Lemma network_failure_propagates_unreachable :
  (Http.request (Reference.browser Reference.unreachable) "/api/v1/buses"
     Http.no_options Reference.idle).1 =
  Http.Throw Reference.network_error.
Proof.
  apply (network_failure_propagates (Reference.browser Reference.unreachable)
           "/api/v1/buses" Http.no_options Reference.idle
           Reference.network_error).
  reflexivity.
Defined.

Lemma fetch_deadline_aborts_silent :
  (Http.request (Reference.browser Reference.silent) "/api/v1/buses"
     Http.no_options Reference.idle).1 =
  Http.Throw Reference.abort_error.
Proof.
  apply (fetch_deadline_aborts (Reference.browser Reference.silent)
           "/api/v1/buses" Http.no_options Reference.idle).
  reflexivity.
Defined.

Lemma error_body_deadline_aborts_slow_503 :
  (Http.request (Reference.browser Scenes.slow_error_server) "/api/v1/buses"
     Http.no_options Reference.idle).1 =
  Http.Throw Reference.abort_error.
Proof.
  apply (error_body_deadline_aborts (Reference.browser Scenes.slow_error_server)
           "/api/v1/buses" Http.no_options Reference.idle
           (Scenes.slow_body 503 "Service Unavailable" ∅ "try again later"));
    reflexivity.
Defined.



Lemma http_error_on_screen_mute_failure :
  ∃ header table control,
    BusPage.BusPage Scenes.a_date 0
      (Hook.fetchBuses (Reference.browser Scenes.mute_failure_server)
         Reference.as_PaginatedBusResponse 0 5 Hook.initial Reference.idle).1 =
    BusPage.Page header table control.
Proof.
  apply (http_error_on_screen (Reference.browser Scenes.mute_failure_server)
           Reference.as_PaginatedBusResponse Scenes.a_date 0 5 0
           Hook.initial Reference.idle
           {| Http.res_status := 500; Http.res_statusText := EmptyString;
              Http.res_headers := ∅; Http.res_body_timing := Http.InTime;
              Http.res_body := inl EmptyString |} EmptyString);
    reflexivity.
Defined.

Lemma envelope_on_screen_first_page :
  Hook.buses
    (Hook.fetchBuses (Reference.browser Scenes.slow_page_server)
       Reference.as_PaginatedBusResponse 0 5 Hook.initial Reference.idle).1 =
  BusAssembler.toEntityFromResource <$> [Scenes.the_bus].
Proof.
  eapply (envelope_on_screen (Reference.browser Scenes.slow_page_server)
            Reference.as_PaginatedBusResponse Scenes.a_date 0 5 0
            Hook.initial Reference.idle
            (Scenes.slow_body 200 "OK" Reference.json_headers Scenes.page_body)
            Scenes.page_body _ Scenes.page_envelope);
    first [reflexivity | discriminate | apply idle_unguarded].
Defined.

Lemma getAll_on_resources_one_bus :
  ∃ entities,
    (Fleet.getAll (Reference.browser Scenes.fleet_server)
       (λ _, Reference.type_error) Reference.idle).1 = Http.Normal entities
    ∧ mapM Fleet.bus_of entities =
      Some (Fleet.toEntitiesFromResponse
              {| BusesResponse.buses := [Scenes.the_bus];
                 BusesResponse.total := 1 |}).
Proof.
  eapply (getAll_on_resources (Reference.browser Scenes.fleet_server)
            (λ _, Reference.type_error) Reference.idle);
    reflexivity.
Defined.
